(** * codeprep: synchronized full-token / sub-token views

    A shallow embedding of [codeprep/tokens.py]: the two alignment
    iterators, the metadata-less surrogate sequence, the validated token
    sequence with its derived index tables, and the two views built on it.

    Python integers are [Z], Python lists are [list], the dictionary
    [_sub_to_full_token_indices] is a [gmap Z nat], exceptions are values of
    [exn] threaded through the error monad [res]. *)

From Stdlib Require Import ZArith List String Ascii Bool Lia.
From stdpp Require Import base tactics option list numbers countable gmap.
From Equations Require Import Equations.
Import ListNotations.

Local Open Scope Z_scope.

(** ** Exceptions and the error monad *)

Inductive exn : Type :=
| ValueError (n_tokens : Z) (n_metadata : Z)
| AssertionError (full_token : string)
| KeyError (ind : Z)
| TypeError (msg : string)
| IndexError
| RecursionError.

Definition res (A : Type) : Type := (exn + A)%type.

Definition ok {A} (a : A) : res A := inr a.
Definition raise {A} (e : exn) : res A := inl e.

Definition bind {A B} (m : res A) (k : A -> res B) : res B :=
  match m with
  | inl e => inl e
  | inr a => k a
  end.

Notation "'let*' x ':=' m 'in' k" := (bind m (fun x => k))
  (at level 10, x name, m at level 100, k at level 200).

(** ** The Python built-ins the module relies on *)

Module Py.

(** [sum(l)] over integers. *)
Definition sum (l : list Z) : Z := fold_left Z.add l 0.

(** [len(l)] as a Python integer. *)
Definition len {A} (l : list A) : Z := Z.of_nat (length l).

(** One bound of [l[start:stop]] (step one), as CPython adjusts it: a
    missing bound takes its default, a negative one counts from the end
    and is clamped at zero, a non-negative one is clamped at the length. *)
Definition adjust (n : Z) (dflt : Z) (i : option Z) : Z :=
  match i with
  | None => dflt
  | Some i => if i <? 0 then Z.max (i + n) 0 else Z.min i n
  end.

(** [l[start:stop]]. *)
Definition slice {A} (l : list A) (start stop : option Z) : list A :=
  let n := len l in
  let lo := adjust n 0 start in
  let hi := adjust n n stop in
  firstn (Z.to_nat (hi - lo)) (skipn (Z.to_nat lo) l).

(** [l[i]] for an integer [i]: negative indices count from the end,
    anything out of range raises [IndexError]. *)
Definition index {A} (l : list A) (i : Z) : res A :=
  let j := if i <? 0 then i + len l else i in
  if j <? 0 then raise IndexError
  else match nth_error l (Z.to_nat j) with
       | Some a => ok a
       | None => raise IndexError
       end.

(** [enumerate(l)], counting from [start]. *)
Fixpoint enumerate_from {A} (start : nat) (l : list A) : list (nat * A) :=
  match l with
  | [] => []
  | a :: l' => (start, a) :: enumerate_from (S start) l'
  end.

Definition enumerate {A} (l : list A) : list (nat * A) := enumerate_from 0 l.

(** ["".join(l)]. *)
Definition join (l : list string) : string := String.concat "" l.

(** [s.endswith(suffix)]. *)
Definition endswith (s suffix : string) : bool :=
  let n := String.length s in
  let m := String.length suffix in
  (m <=? n)%nat && String.eqb (String.substring (n - m) m s) suffix.

End Py.

(** ** Collaborators outside [tokens.py] *)

(** Modelled from the spec: [codeprep.util.misc.cum_sum] is imported but not
    part of the sources at hand; the spec describes [full_to_sub] as the
    prefix-sum table of [subtoken_counts], so [cum_sum] yields the running
    totals of its argument. *)
Fixpoint cum_sum_from (acc : Z) (l : list Z) : list Z :=
  match l with
  | [] => []
  | x :: l' => (acc + x) :: cum_sum_from (acc + x) l'
  end.

Definition cum_sum (l : list Z) : list Z := cum_sum_from 0 l.

(** Modelled from the spec: [placeholders['compound_word_end']] is the
    designated end-of-word marker; the module's own doctest spells it
    [</t>]. *)
Definition compound_word_end : string := "</t>".

Definition is_terminal_subtoken (subtoken : string) : bool :=
  Py.endswith subtoken compound_word_end.

(** ** Draining a Python iterator

    [__next__] is a step function on the iterator's cursor; it stops,
    yields a value with the next cursor, or raises. *)

Inductive step (A S : Type) : Type :=
| Stop
| Yield (a : A) (s : S)
| Throw (e : exn).
Arguments Stop {A S}.
Arguments Yield {A S} a s.
Arguments Throw {A S} e.

(** What a [for] loop or a list comprehension sees. *)
Inductive drained (A : Type) : Type :=
| Finished (l : list A)
| Raised (l : list A) (e : exn)
| OutOfFuel (l : list A).
Arguments Finished {A} l.
Arguments Raised {A} l e.
Arguments OutOfFuel {A} l.

Definition cons_drained {A} (a : A) (d : drained A) : drained A :=
  match d with
  | Finished l => Finished (a :: l)
  | Raised l e => Raised (a :: l) e
  | OutOfFuel l => OutOfFuel (a :: l)
  end.

Fixpoint drain {A S} (next : S -> step A S) (fuel : nat) (s : S) : drained A :=
  match fuel with
  | O => OutOfFuel []
  | S fuel' =>
      match next s with
      | Stop => Finished []
      | Yield a s' => cons_drained a (drain next fuel' s')
      | Throw e => Raised [] e
      end
  end.

Section Tokens.

(** Type tags of full tokens are opaque to the module. *)
Variable TokenType : Type.

(** Modelled from the spec: [PreppedTokenMetadata] lives in
    [codeprep.preprocess.metadata], outside the sources at hand. It is a
    pair of parallel arrays; [update_] appends both arrays of another
    instance in place and returns the receiver. *)
Record PreppedTokenMetadata : Type := {
  n_subtokens_per_token : list Z;
  token_types : list TokenType
}.

Definition metadata_update_ (self other : PreppedTokenMetadata) : PreppedTokenMetadata :=
  {| n_subtokens_per_token := n_subtokens_per_token self ++ n_subtokens_per_token other;
     token_types := token_types self ++ token_types other |}.

(** ** The alignment iterators *)

(** Both iterators keep the same cursor. *)
Record cursor : Type := {
  current_full_word : Z;
  current_index : Z
}.

Definition cursor0 : cursor := {| current_full_word := 0; current_index := 0 |}.

Section Iterators.

Context {A B : Type}.

(** [_SubOverFullTokenIterator.__next__]. *)
Definition sub_over_full_next (over : list A) (metadata : PreppedTokenMetadata)
    (c : cursor) : step A cursor :=
  if current_full_word c >=? Py.len over then Stop
  else
    match Py.index over (current_full_word c) with
    | inl e => Throw e
    | inr result =>
        let ci := current_index c + 1 in
        match Py.index (n_subtokens_per_token metadata) (current_full_word c) with
        | inl e => Throw e
        | inr n =>
            if ci >=? n
            then Yield result {| current_full_word := current_full_word c + 1;
                                 current_index := 0 |}
            else Yield result {| current_full_word := current_full_word c;
                                 current_index := ci |}
        end
    end.

(** [_FullOverSubTokenIterator.__next__]. *)
Definition full_over_sub_next (over : list A) (metadata : PreppedTokenMetadata)
    (formatter : list A -> B) (c : cursor) : step B cursor :=
  if current_full_word c >=? Py.len (n_subtokens_per_token metadata) then Stop
  else
    match Py.index (n_subtokens_per_token metadata) (current_full_word c) with
    | inl e => Throw e
    | inr sub_words_in_current_full_word =>
        let result :=
          formatter (Py.slice over (Some (current_index c))
                       (Some (current_index c + sub_words_in_current_full_word))) in
        Yield result
          {| current_full_word := current_full_word c + 1;
             current_index := current_index c + sub_words_in_current_full_word |}
    end.

End Iterators.

(** ** [SurrogatePreppedTokenSequence] and [PreppedTokenSequence] *)

(** Values produced by a formatter are opaque as well. *)
Variable Formatted : Type.

Record SurrogatePreppedTokenSequence : Type := {
  surrogate_tokens : list string
}.

(** The dataclass fields and the two tables [__post_init__] derives. *)
Record PreppedTokenSequence : Type := {
  tokens : list string;
  metadata : PreppedTokenMetadata;
  word_end_token_added : bool;
  _full_to_sub_token_indices : list Z;
  _sub_to_full_token_indices : gmap Z nat
}.

(** [PreppedSubTokenSequence] adds no field; [PreppedFullTokenSequence]
    adds two. *)
Record PreppedFullTokenSequence : Type := {
  base : PreppedTokenSequence;
  formatter : list string -> Formatted;
  return_token_type : bool
}.

(** What a dynamically typed operand can be: [isinstance] tells the cases
    apart. [VOther] stands for any object of another class. *)
Inductive value : Type :=
| VSub (s : PreppedTokenSequence)
| VFull (s : PreppedFullTokenSequence)
| VSurrogate (s : SurrogatePreppedTokenSequence)
| VOther.

(** [slice(start, stop, step)] or a plain integer. *)
Inductive item : Type :=
| Int (i : Z)
| Slice (start stop step : option Z).

(** [{n: i for i, n in enumerate(l)}]: later pairs overwrite earlier ones. *)
Definition index_dict (l : list Z) : gmap Z nat :=
  fold_left (fun m p => <[snd p := fst p]> m) (Py.enumerate l) ∅.

(** Matching on a value while remembering what it is equal to. *)
Definition inspect {X : Type} (x : X) : {y : X | x = y} := exist _ x eq_refl.

(** The loop of [__post_init__] over the full tokens joined by ["".join]. *)
Equations check_full_tokens (toks : list string) (md : PreppedTokenMetadata)
    (c : cursor) : res unit
  by wf (Z.to_nat (Py.len (n_subtokens_per_token md) - current_full_word c)) lt :=
  check_full_tokens toks md c with inspect (full_over_sub_next toks md Py.join c) := {
    | exist _ Stop _ => ok tt
    | exist _ (Throw e) _ => raise e
    | exist _ (Yield full_token c') Hnext =>
        if is_terminal_subtoken full_token
        then check_full_tokens toks md c'
        else raise (AssertionError full_token) }.
Next Obligation.
  unfold full_over_sub_next in Hnext.
  destruct (current_full_word c >=? Py.len (n_subtokens_per_token md)) eqn:Hge;
    [discriminate|].
  destruct (Py.index (n_subtokens_per_token md) (current_full_word c));
    [discriminate|].
  injection Hnext as _ <-. simpl. lia.
Qed.

Definition __post_init__ (toks : list string) (md : PreppedTokenMetadata)
    (weta : bool) : res PreppedTokenSequence :=
  let n_subtokens_per_token := n_subtokens_per_token md in
  if negb (Py.len toks =? Py.sum n_subtokens_per_token)
  then raise (ValueError (Py.len toks) (Py.sum n_subtokens_per_token))
  else
    let* _ := (if weta then check_full_tokens toks md cursor0 else ok tt) in
    let full_to_sub := 0 :: cum_sum n_subtokens_per_token in
    ok {| tokens := toks;
          metadata := md;
          word_end_token_added := weta;
          _full_to_sub_token_indices := full_to_sub;
          _sub_to_full_token_indices := index_dict full_to_sub |}.

(** The two concrete constructors. *)
Definition PreppedSubTokenSequence_new (toks : list string)
    (md : PreppedTokenMetadata) (weta : bool) : res PreppedTokenSequence :=
  __post_init__ toks md weta.

Definition PreppedFullTokenSequence_new (toks : list string)
    (md : PreppedTokenMetadata) (weta : bool)
    (fmt : list string -> Formatted) (rtt : bool) : res PreppedFullTokenSequence :=
  let* b := __post_init__ toks md weta in
  ok {| base := b; formatter := fmt; return_token_type := rtt |}.

(** [__len__] of either view. *)
Definition sub_len (self : PreppedTokenSequence) : res nat :=
  ok (length (tokens self)).

Definition full_len (self : PreppedTokenSequence) : res nat :=
  match _sub_to_full_token_indices self !! Py.len (tokens self) with
  | Some i => ok i
  | None => raise (KeyError (Py.len (tokens self)))
  end.

(** ** Index normalisation and translation *)

(** How many more calls [_convert_index] makes from [index]. *)
Definition convert_rank (n : nat) (index : Z) : nat :=
  if index <? - Z.of_nat n then 2%nat
  else if (index <? 0) || (index >? Z.of_nat n) then 1%nat
  else 0%nat.

(** [_convert_index] on an index that is not [None]; [n_full_tokens] is
    [len(self)]. *)
Equations _convert_index_at (n_full_tokens : nat) (conversion_func : Z -> res Z)
    (index : Z) : res Z
  by wf (convert_rank n_full_tokens index) lt :=
  _convert_index_at n f index with Z_lt_dec index (- Z.of_nat n) := {
    | left _ =>
        let* r := _convert_index_at n f (Z.of_nat n + 1) in
        ok (- r - 1)
    | right _ with Z_lt_dec index 0 := {
      | left _ => _convert_index_at n f (Z.of_nat n + index)
      | right _ with Z_gt_dec index (Z.of_nat n) := {
        | left _ => _convert_index_at n f (Z.of_nat n)
        | right _ => f index } } }.
Next Obligation.
  unfold convert_rank.
  repeat match goal with
         | |- context [if ?b then _ else _] => destruct b eqn:?
         end; simpl in *; lia.
Qed.
Next Obligation.
  unfold convert_rank.
  repeat match goal with
         | |- context [if ?b then _ else _] => destruct b eqn:?
         end; simpl in *; lia.
Qed.
Next Obligation.
  unfold convert_rank.
  repeat match goal with
         | |- context [if ?b then _ else _] => destruct b eqn:?
         end; simpl in *; lia.
Qed.

(** [len_self] is what [len(self)] gives for the receiver's class. *)
Definition _convert_index (len_self : res nat) (index : option Z)
    (conversion_func : Z -> res Z) : res (option Z) :=
  match index with
  | None => ok None
  | Some index =>
      let* n_full_tokens := len_self in
      let* r := _convert_index_at n_full_tokens conversion_func index in
      ok (Some r)
  end.

Definition _full_to_sub_index (self : PreppedTokenSequence) (len_self : res nat)
    (index : option Z) : res (option Z) :=
  _convert_index len_self index
    (fun i => Py.index (_full_to_sub_token_indices self) i).

Definition _sub_to_full_index (self : PreppedTokenSequence) (len_self : res nat)
    (index : option Z) : res (option Z) :=
  let conversion_func ind :=
    match _sub_to_full_token_indices self !! ind with
    | Some i => ok (Z.of_nat i)
    | None => raise (KeyError ind)
    end in
  _convert_index len_self index conversion_func.

(** ** Views, concatenation *)

Definition full_tokens_view (self : PreppedTokenSequence)
    (fmt : list string -> Formatted) (rtt : bool) : res PreppedFullTokenSequence :=
  PreppedFullTokenSequence_new (tokens self) (metadata self)
    (word_end_token_added self) fmt rtt.

Definition sub_token_view (self : PreppedTokenSequence) : res PreppedTokenSequence :=
  PreppedSubTokenSequence_new (tokens self) (metadata self)
    (word_end_token_added self).

(** [update_(tokens=..., metadata=...)] overwrites the two attributes and
    nothing else. *)
Definition update_ (self : PreppedTokenSequence) (toks : list string)
    (md : PreppedTokenMetadata) : PreppedTokenSequence :=
  {| tokens := toks;
     metadata := md;
     word_end_token_added := word_end_token_added self;
     _full_to_sub_token_indices := _full_to_sub_token_indices self;
     _sub_to_full_token_indices := _sub_to_full_token_indices self |}.

(** [isinstance(other, PreppedTokenSequence)]. *)
Definition as_sequence (other : value) : option PreppedTokenSequence :=
  match other with
  | VSub o => Some o
  | VFull o => Some (base o)
  | _ => None
  end.

(** [PreppedTokenSequence.add]: the receiver after the call (left), or the
    fresh surrogate it returns (right). [add_sequence] is its first branch:
    the receiver's list and metadata are extended in place and [update_]
    stores them back. *)
Definition add_sequence (self other : PreppedTokenSequence) : PreppedTokenSequence :=
  let toks := tokens self ++ tokens other in
  let md := metadata_update_ (metadata self) (metadata other) in
  update_ self toks md.

Definition add (self : PreppedTokenSequence) (other : value)
    : res (PreppedTokenSequence + SurrogatePreppedTokenSequence) :=
  match as_sequence other with
  | Some o => ok (inl (add_sequence self o))
  | None =>
      match other with
      | VSurrogate o =>
          ok (inr {| surrogate_tokens := tokens self ++ surrogate_tokens o |})
      | _ => raise (TypeError "")
      end
  end.

Definition sub_add (self : PreppedTokenSequence) (other : value) : res value :=
  let* r := add self other in
  match r with
  | inl self' => ok (VSub self')
  | inr s => ok (VSurrogate s)
  end.

Definition full_add (self : PreppedFullTokenSequence) (other : value) : res value :=
  let* r := add (base self) other in
  match r with
  | inl self' =>
      ok (VFull {| base := self'; formatter := formatter self;
                   return_token_type := return_token_type self |})
  | inr s => ok (VSurrogate s)
  end.

(** [SurrogatePreppedTokenSequence.add]. *)
Definition surrogate_add (self : SurrogatePreppedTokenSequence) (other : value)
    : res SurrogatePreppedTokenSequence :=
  match other with
  | VSurrogate o =>
      ok {| surrogate_tokens := surrogate_tokens self ++ surrogate_tokens o |}
  | _ => raise (TypeError "")
  end.

(** ** Indexing and slicing *)

(** [raise NotImplemented("It is not possible to specify step")]:
    [NotImplemented] is not an exception class, so what the statement
    raises is the [TypeError] of calling it. *)
Definition unsupported_step : exn :=
  TypeError "'NotImplementedType' object is not callable".

(** The first lines of both [__getitem__]s: an integer becomes a one-element
    slice, a slice that names a step is refused. *)
Definition as_slice (it : item) : res (option Z * option Z) :=
  match it with
  | Int i => ok (Some i, Some (i + 1))
  | Slice start stop None => ok (start, stop)
  | Slice _ _ (Some _) => raise unsupported_step
  end.

Definition slice_metadata (md : PreppedTokenMetadata) (start stop : option Z)
    : PreppedTokenMetadata :=
  {| n_subtokens_per_token := Py.slice (n_subtokens_per_token md) start stop;
     token_types := Py.slice (token_types md) start stop |}.

(** [PreppedSubTokenSequence.__getitem__]. *)
Definition sub_getitem (self : PreppedTokenSequence) (it : item) : res value :=
  let* sl := as_slice it in
  let attempt :=
    let* full_start := _sub_to_full_index self (sub_len self) (fst sl) in
    let* full_stop := _sub_to_full_index self (sub_len self) (snd sl) in
    PreppedSubTokenSequence_new
      (Py.slice (tokens self) (fst sl) (snd sl))
      (slice_metadata (metadata self) full_start full_stop)
      (word_end_token_added self) in
  match attempt with
  | inl (KeyError _) =>
      ok (VSurrogate {| surrogate_tokens := Py.slice (tokens self) (fst sl) (snd sl) |})
  | inl e => raise e
  | inr s => ok (VSub s)
  end.

(** [PreppedFullTokenSequence.__getitem__]. *)
Definition full_getitem (self : PreppedFullTokenSequence) (it : item)
    : res PreppedFullTokenSequence :=
  let* sl := as_slice it in
  let* sub_start := _full_to_sub_index (base self) (full_len (base self)) (fst sl) in
  let* sub_stop := _full_to_sub_index (base self) (full_len (base self)) (snd sl) in
  PreppedFullTokenSequence_new
    (Py.slice (tokens (base self)) sub_start sub_stop)
    (slice_metadata (metadata (base self)) (fst sl) (snd sl))
    (word_end_token_added (base self))
    (formatter self) (return_token_type self).

(** [PreppedFullTokenSequence.__setitem__], as a state transformer on the
    receiver: the only write is the final assignment to [self.__dict__], so
    an exception leaves the receiver as it was. The prefix slice is a fresh
    object; both calls of [add] receive a [PreppedTokenSequence] and so
    return that object, extended. *)
Definition full_setitem (self : PreppedFullTokenSequence) (key : Z) (v : value)
    : res unit * PreppedFullTokenSequence :=
  match v with
  | VFull v =>
      let outcome :=
        let* prefix := full_getitem self (Slice None (Some key) None) in
        let prefix1 := add_sequence (base prefix) (base v) in
        let* suffix := full_getitem self (Slice (Some (key + 1)) None None) in
        let prefix2 := add_sequence prefix1 (base suffix) in
        ok {| base := prefix2; formatter := formatter prefix;
              return_token_type := return_token_type prefix |} in
      match outcome with
      | inl e => (raise e, self)
      | inr self' => (ok tt, self')
      end
  | _ => (raise (TypeError "Can assign only PreppedFullTokenSequence instance"), self)
  end.

(** ** Iterating over data aligned with a sequence *)

(** An iterator object: a cursor and its [__next__]. *)
Record iterator (X : Type) : Type := Iterator {
  it_cursor : Type;
  it_next : it_cursor -> step X it_cursor;
  it_start : it_cursor
}.
Arguments Iterator {X it_cursor} it_next it_start.
Arguments it_cursor {X} i.
Arguments it_next {X} i.
Arguments it_start {X} i.

(** [[x for x in it]], with a bound on the number of calls of [__next__]. *)
Definition to_list {X} (it : iterator X) (fuel : nat) : drained X :=
  drain (it_next it) fuel (it_start it).

(** [iter(over)] for a list. *)
Definition list_next {X} (l : list X) : step X (list X) :=
  match l with
  | [] => Stop
  | x :: l' => Yield x l'
  end.

Definition iter {X} (over : list X) : iterator X := Iterator list_next over.

Definition _SubOverFullTokenIterator {X} (over : list X)
    (md : PreppedTokenMetadata) : iterator X :=
  Iterator (sub_over_full_next over md) cursor0.

Definition _FullOverSubTokenIterator {X Y} (over : list X)
    (md : PreppedTokenMetadata) (fmt : list X -> Y) : iterator Y :=
  Iterator (full_over_sub_next over md fmt) cursor0.

(** [PreppedSubTokenSequence.get_iterator]. *)
Definition sub_get_iterator {X} (self : PreppedTokenSequence) (over : list X)
    (over_full_tokens : bool) : iterator X :=
  if over_full_tokens then _SubOverFullTokenIterator over (metadata self)
  else iter over.

(** [PreppedFullTokenSequence.get_iterator]: the two branches yield values of
    different types. *)
Definition full_get_iterator {X Y} (self : PreppedFullTokenSequence) (over : list X)
    (over_full_tokens : bool) (fmt : list X -> Y) : iterator X + iterator Y :=
  if over_full_tokens then inl (iter over)
  else inr (_FullOverSubTokenIterator over (metadata (base self)) fmt).

(** [PreppedFullTokenSequence.__iter__] without the token types. *)
Definition full_iter (self : PreppedFullTokenSequence) : iterator Formatted :=
  _FullOverSubTokenIterator (tokens (base self)) (metadata (base self))
    (formatter self).

(** [PreppedSubTokenSequence.__iter__]. *)
Definition sub_iter (self : PreppedTokenSequence) : iterator string :=
  iter (tokens self).

(** [zip(a, b)]: [a] is advanced first; as soon as either side stops, so does
    the pair. *)
Definition zip_next {X Y S T} (next_a : S -> step X S) (next_b : T -> step Y T)
    (c : S * T) : step (X * Y) (S * T) :=
  match next_a (fst c) with
  | Stop => Stop
  | Throw e => Throw e
  | Yield x s' =>
      match next_b (snd c) with
      | Stop => Stop
      | Throw e => Throw e
      | Yield y t' => Yield (x, y) (s', t')
      end
  end.

Definition zip {X Y} (a : iterator X) (b : iterator Y) : iterator (X * Y) :=
  Iterator (zip_next (it_next a) (it_next b)) (it_start a, it_start b).

(** [PreppedFullTokenSequence.__iter__]: formatted full tokens, paired with
    their types when [return_token_type] is set. *)
Definition full_iter_typed (self : PreppedFullTokenSequence)
    : iterator Formatted + iterator (Formatted * TokenType) :=
  let token_iterator :=
    _FullOverSubTokenIterator (tokens (base self)) (metadata (base self))
      (formatter self) in
  if return_token_type self
  then inr (zip token_iterator (iter (token_types (metadata (base self)))))
  else inl token_iterator.

(** [PreppedSubTokenSequence.from_full_token]: the flag keeps its default. *)
Definition from_full_token (prepped_token : list string) (token_type : TokenType)
    : res PreppedTokenSequence :=
  PreppedSubTokenSequence_new prepped_token
    {| n_subtokens_per_token := [Py.len prepped_token];
       token_types := [token_type] |}
    false.

(** [PreppedSubTokenSequence.set_all_tokens_type]: the receiver after the
    call; [[t] * n] is [n] copies of [t]. *)
Definition set_all_tokens_type (self : PreppedTokenSequence) (t : TokenType)
    : PreppedTokenSequence :=
  {| tokens := tokens self;
     metadata :=
       {| n_subtokens_per_token := n_subtokens_per_token (metadata self);
          token_types :=
            repeat t (length (n_subtokens_per_token (metadata self))) |};
     word_end_token_added := word_end_token_added self;
     _full_to_sub_token_indices := _full_to_sub_token_indices self;
     _sub_to_full_token_indices := _sub_to_full_token_indices self |}.

End Tokens.

Arguments Build_PreppedTokenMetadata {TokenType} _ _.
Arguments n_subtokens_per_token {TokenType} _.
Arguments token_types {TokenType} _.
Arguments metadata_update_ {TokenType} self other.
Arguments sub_over_full_next {TokenType A} over metadata c.
Arguments full_over_sub_next {TokenType A B} over metadata formatter c.
Arguments Build_PreppedTokenSequence {TokenType} _ _ _ _ _.
Arguments tokens {TokenType} _.
Arguments metadata {TokenType} _.
Arguments word_end_token_added {TokenType} _.
Arguments _full_to_sub_token_indices {TokenType} _.
Arguments _sub_to_full_token_indices {TokenType} _.
Arguments Build_PreppedFullTokenSequence {TokenType Formatted} _ _ _.
Arguments base {TokenType Formatted} _.
Arguments formatter {TokenType Formatted} _.
Arguments return_token_type {TokenType Formatted} _.
Arguments VSub {TokenType Formatted} s.
Arguments VFull {TokenType Formatted} s.
Arguments VSurrogate {TokenType Formatted} s.
Arguments VOther {TokenType Formatted}.
Arguments check_full_tokens {TokenType} toks md c.
Arguments __post_init__ {TokenType} toks md weta.
Arguments PreppedSubTokenSequence_new {TokenType} toks md weta.
Arguments PreppedFullTokenSequence_new {TokenType Formatted} toks md weta fmt rtt.
Arguments sub_len {TokenType} self.
Arguments full_len {TokenType} self.
Arguments _full_to_sub_index {TokenType} self len_self index.
Arguments _sub_to_full_index {TokenType} self len_self index.
Arguments full_tokens_view {TokenType Formatted} self fmt rtt.
Arguments sub_token_view {TokenType} self.
Arguments update_ {TokenType} self toks md.
Arguments as_sequence {TokenType Formatted} other.
Arguments add_sequence {TokenType} self other.
Arguments add {TokenType Formatted} self other.
Arguments sub_add {TokenType Formatted} self other.
Arguments full_add {TokenType Formatted} self other.
Arguments surrogate_add {TokenType Formatted} self other.
Arguments slice_metadata {TokenType} md start stop.
Arguments sub_getitem {TokenType Formatted} self it.
Arguments full_getitem {TokenType Formatted} self it.
Arguments full_setitem {TokenType Formatted} self key v.
Arguments _SubOverFullTokenIterator {TokenType X} over md.
Arguments _FullOverSubTokenIterator {TokenType X Y} over md fmt.
Arguments sub_get_iterator {TokenType X} self over over_full_tokens.
Arguments full_get_iterator {TokenType Formatted X Y} self over over_full_tokens fmt.
Arguments full_iter {TokenType Formatted} self.
Arguments sub_iter {TokenType} self.
Arguments full_iter_typed {TokenType Formatted} self.
Arguments from_full_token {TokenType} prepped_token token_type.
Arguments set_all_tokens_type {TokenType} self t.

(** * Vocabulary of the statements *)

(** ** The full tokens, in the spec's words *)

(** Following the spec, not the code: the sub-tokens of each full token, cut
    from the token list by the successive counts. *)
Fixpoint spec_full_tokens {X} (toks : list X) (counts : list Z) : list (list X) :=
  match counts with
  | [] => []
  | c :: cs =>
      firstn (Z.to_nat c) toks :: spec_full_tokens (skipn (Z.to_nat c) toks) cs
  end.

(** The first full token, joined, that does not end with the marker. *)
Definition first_unterminated (full : list (list string)) : option string :=
  List.find (fun t => negb (is_terminal_subtoken t)) (map Py.join full).

(** A full token, joined, that lacks the marker. *)
Definition unterminated (full_token : list string) : Prop :=
  is_terminal_subtoken (Py.join full_token) = false.

(** ** Index normalisation and slices, flattened *)

(** The index at which [_convert_index] applies the conversion function. *)
Definition normalized (n : nat) (i : Z) : Z :=
  if i <? - Z.of_nat n then Z.of_nat n
  else if i <? 0 then Z.of_nat n + i
  else if i >? Z.of_nat n then Z.of_nat n
  else i.

(** The full-token positions a slice [start:stop] of a full-token view of
    length [n] runs between. *)
Definition slice_lo (n : nat) (start : option Z) : nat :=
  Z.to_nat (Py.adjust (Z.of_nat n) 0 start).

Definition slice_hi (n : nat) (stop : option Z) : nat :=
  Z.to_nat (Py.adjust (Z.of_nat n) (Z.of_nat n) stop).

(** The class of exception both rejections of a bad operand or step belong to. *)
Definition is_type_error (e : exn) : Prop :=
  match e with
  | TypeError _ => True
  | _ => False
  end.

(** ** What the alignment iterators produce *)

(** Each element of [over] once per sub-token of its full token, and at
    least once: the broadcast iterator moves on after a single value when the
    count is below one. *)
Definition broadcast {X} (over : list X) (counts : list Z) : list X :=
  flat_map (fun p => repeat (fst p) (Z.to_nat (Z.max 1 (snd p))))
    (combine over counts).

(** Values yielded before the rest of a drain. *)
Definition prepend {X} (l : list X) (d : drained X) : drained X :=
  fold_right cons_drained d l.

Section Vocabulary.

Context {TokenType : Type}.

Implicit Types (md : PreppedTokenMetadata TokenType).
Implicit Types (seq : PreppedTokenSequence TokenType).

(** The instance construction leaves behind. *)
Definition built (toks : list string) md (weta : bool) : PreppedTokenSequence TokenType :=
  {| tokens := toks;
     metadata := md;
     word_end_token_added := weta;
     _full_to_sub_token_indices := 0 :: cum_sum (n_subtokens_per_token md);
     _sub_to_full_token_indices := index_dict (0 :: cum_sum (n_subtokens_per_token md)) |}.

(** A sequence is valid when it is exactly what construction from its own
    fields yields: the checks pass and the tables are the derived ones. *)
Definition valid seq : Prop :=
  __post_init__ (tokens seq) (metadata seq) (word_end_token_added seq) = inr seq.

(** A bound of a sub-token slice is misaligned when, once normalized, it is
    not a key of the boundary dictionary. *)
Definition misaligned seq (bound : option Z) : Prop :=
  match bound with
  | None => False
  | Some i =>
      _sub_to_full_token_indices seq !! normalized (length (tokens seq)) i = None
  end.

(** The sum of the first [k] counts: where full token [k] starts. *)
Definition offset md (k : nat) : Z := Py.sum (firstn k (n_subtokens_per_token md)).

(** The sub-tokens of the full tokens [lo], ..., [hi - 1]. *)
Definition tokens_between (toks : list string) md (lo hi : nat) : list string :=
  firstn (Z.to_nat (offset md hi - offset md lo))
    (skipn (Z.to_nat (offset md lo)) toks).

(** What [_full_to_sub_index] returns on a constructed sequence. *)
Definition sub_bound md (bound : option Z) : option Z :=
  let n := length (n_subtokens_per_token md) in
  match bound with
  | None => None
  | Some i =>
      Some (if i <? - Z.of_nat n
            then - offset md n - 1
            else offset md (Z.to_nat (normalized n i)))
  end.

End Vocabulary.

(** The tokens an operand of a concatenation carries, whatever its class. *)
Definition raw_tokens {TokenType Formatted : Type}
    (v : value TokenType Formatted) : list string :=
  match v with
  | VSub s => tokens s
  | VFull s => tokens (base s)
  | VSurrogate s => surrogate_tokens s
  | VOther => []
  end.

(** * The module's doctest, as fixtures *)

Module Doctest.

Definition TypeA : string := "TypeA".

Definition metadata12 : PreppedTokenMetadata string :=
  {| n_subtokens_per_token := [1; 2]; token_types := [TypeA; TypeA] |}.

Definition metadata11 : PreppedTokenMetadata string :=
  {| n_subtokens_per_token := [1; 1]; token_types := [TypeA; TypeA] |}.

Definition metadata1 : PreppedTokenMetadata string :=
  {| n_subtokens_per_token := [1]; token_types := [TypeA] |}.

(** [PreppedSubTokenSequence(['hi</t>', 'the', 're</t>'], ..., True)]. *)
Definition prepped_tokens : PreppedTokenSequence string :=
  built ["hi</t>"; "the"; "re</t>"]%string metadata12 true.

(** Its full-token view, formatted by ["".join]. *)
Definition full_prepped_tokens : PreppedFullTokenSequence string string :=
  {| base := prepped_tokens; formatter := Py.join; return_token_type := false |}.

(** Two full-token views of one full token each. *)
Definition hi : PreppedFullTokenSequence string string :=
  {| base := built ["hi</t>"%string] metadata1 true;
     formatter := Py.join; return_token_type := false |}.

Definition there : PreppedFullTokenSequence string string :=
  {| base := built ["there</t>"%string] metadata1 true;
     formatter := Py.join; return_token_type := false |}.

End Doctest.

(** * Properties *)

(** ** Sums, prefix sums and the boundary dictionary *)

Lemma sum_from (l : list Z) (a : Z) : fold_left Z.add l a = a + Py.sum l.
Proof.
  unfold Py.sum. revert a.
  induction l as [|x l IH]; intros a; simpl; [lia|].
  rewrite (IH (a + x)), (IH (0 + x)). lia.
Qed.

Lemma sum_cons (x : Z) (l : list Z) : Py.sum (x :: l) = x + Py.sum l.
Proof. unfold Py.sum at 1. simpl. apply sum_from. Qed.

Lemma sum_app (l1 l2 : list Z) : Py.sum (l1 ++ l2) = Py.sum l1 + Py.sum l2.
Proof.
  induction l1 as [|x l1 IH]; simpl; [reflexivity|].
  rewrite !sum_cons, IH. lia.
Qed.

Lemma sum_nonneg (l : list Z) : Forall (fun c => 0 <= c) l -> 0 <= Py.sum l.
Proof.
  induction 1 as [|x l Hx _ IH]; [unfold Py.sum; simpl; lia|].
  rewrite sum_cons. lia.
Qed.

Lemma cum_sum_from_length (acc : Z) (l : list Z) :
  length (cum_sum_from acc l) = length l.
Proof. revert acc. induction l; intros; simpl; auto. Qed.

Lemma cum_sum_from_snoc (acc : Z) (l : list Z) (x : Z) :
  cum_sum_from acc (l ++ [x]) = cum_sum_from acc l ++ [acc + Py.sum (l ++ [x])].
Proof.
  revert acc. induction l as [|y l IH]; intros acc; simpl.
  - rewrite sum_cons. unfold Py.sum. simpl. do 2 f_equal. lia.
  - rewrite IH, (sum_cons y). do 3 f_equal. lia.
Qed.

(** The table [0 :: cum_sum counts] ends with the total. *)
Lemma full_to_sub_last (counts : list Z) :
  exists pre, 0 :: cum_sum counts = pre ++ [Py.sum counts]
              /\ length pre = length counts.
Proof.
  induction counts as [|x l _] using rev_ind.
  - exists []. split; reflexivity.
  - exists (0 :: cum_sum l). unfold cum_sum. rewrite cum_sum_from_snoc.
    simpl. rewrite cum_sum_from_length, length_app. simpl. split; [reflexivity|lia].
Qed.

Lemma enumerate_from_snoc {X} (start : nat) (l : list X) (x : X) :
  Py.enumerate_from start (l ++ [x]) =
  Py.enumerate_from start l ++ [((start + length l)%nat, x)].
Proof.
  revert start. induction l as [|y l IH]; intros start; simpl.
  - rewrite Nat.add_0_r. reflexivity.
  - rewrite IH, Nat.add_succ_r. reflexivity.
Qed.

(** The last pair of the comprehension wins. *)
Lemma index_dict_snoc (pre : list Z) (k : Z) :
  index_dict (pre ++ [k]) !! k = Some (length pre).
Proof.
  unfold index_dict, Py.enumerate. rewrite enumerate_from_snoc, fold_left_app.
  simpl. apply lookup_insert_eq.
Qed.

Lemma sum_firstn_nonneg (l : list Z) (k : nat) :
  Forall (fun c => 0 <= c) l -> 0 <= Py.sum (firstn k l).
Proof. intros H. apply sum_nonneg, Forall_take, H. Qed.

Lemma sum_firstn_mono (l : list Z) (j k : nat) :
  Forall (fun c => 0 <= c) l -> (j <= k)%nat ->
  Py.sum (firstn j l) <= Py.sum (firstn k l).
Proof.
  intros H Hjk.
  replace k with (j + (k - j))%nat by lia.
  rewrite <- (firstn_skipn j (firstn (j + (k - j)) l)).
  rewrite sum_app, firstn_firstn, Nat.min_l by lia.
  assert (0 <= Py.sum (skipn j (firstn (j + (k - j)) l))); [|lia].
  apply sum_nonneg, Forall_drop, Forall_take, H.
Qed.

Lemma sum_firstn_skipn (l : list Z) (j k : nat) :
  Py.sum (firstn k (skipn j l)) = Py.sum (firstn (j + k) l) - Py.sum (firstn j l).
Proof.
  rewrite <- (firstn_skipn j (firstn (j + k) l)).
  rewrite sum_app, firstn_firstn, Nat.min_l by lia.
  rewrite skipn_firstn_comm. replace (j + k - j)%nat with k by lia. lia.
Qed.

Lemma nth_error_cum_sum_from (acc : Z) (l : list Z) (k : nat) :
  (k < length l)%nat ->
  nth_error (cum_sum_from acc l) k = Some (acc + Py.sum (firstn (S k) l)).
Proof.
  revert acc k. induction l as [|x l IH]; intros acc k Hk; simpl in Hk; [lia|].
  destruct k as [|k].
  - simpl. unfold Py.sum. simpl. f_equal.
  - change (nth_error (cum_sum_from (acc + x) l) k
            = Some (acc + Py.sum (x :: firstn (S k) l))).
    rewrite IH by lia. rewrite sum_cons. f_equal. lia.
Qed.

(** Entry [i] of the table [0 :: cum_sum counts] is the sum of the first [i]
    counts. *)
Lemma index_full_to_sub (counts : list Z) (i : nat) :
  (i <= length counts)%nat ->
  Py.index (0 :: cum_sum counts) (Z.of_nat i) = ok (Py.sum (firstn i counts)).
Proof.
  intros Hi. unfold Py.index.
  rewrite !(proj2 (Z.ltb_ge (Z.of_nat i) 0)) by lia. rewrite Nat2Z.id.
  destruct i as [|i]; [reflexivity|].
  simpl nth_error. unfold cum_sum. rewrite nth_error_cum_sum_from by lia.
  f_equal.
Qed.

Lemma spec_full_tokens_length {X} (toks : list X) (counts : list Z) :
  length (spec_full_tokens toks counts) = length counts.
Proof. revert toks. induction counts; intros; simpl; auto. Qed.

Lemma spec_full_tokens_firstn {X} (toks : list X) (counts : list Z) (k : nat) :
  firstn k (spec_full_tokens toks counts) = spec_full_tokens toks (firstn k counts).
Proof.
  revert toks k. induction counts as [|c counts IH]; intros toks k.
  - rewrite !firstn_nil. reflexivity.
  - destruct k as [|k]; [reflexivity|]. simpl. rewrite IH. reflexivity.
Qed.

Lemma spec_full_tokens_skipn {X} (toks : list X) (counts : list Z) (k : nat) :
  Forall (fun c => 0 <= c) counts ->
  skipn k (spec_full_tokens toks counts)
  = spec_full_tokens (skipn (Z.to_nat (Py.sum (firstn k counts))) toks) (skipn k counts).
Proof.
  revert toks k. induction counts as [|c counts IH]; intros toks k Hnn.
  - rewrite !skipn_nil. reflexivity.
  - destruct k as [|k]; [reflexivity|].
    inversion Hnn as [|? ? Hc Hrest]; subst.
    change (skipn k (spec_full_tokens (skipn (Z.to_nat c) toks) counts)
            = spec_full_tokens
                (skipn (Z.to_nat (Py.sum (c :: firstn k counts))) toks)
                (skipn k counts)).
    rewrite IH by assumption. rewrite skipn_skipn, sum_cons.
    pose proof (sum_firstn_nonneg counts k Hrest).
    do 2 f_equal. lia.
Qed.

(** Tokens beyond the total of the counts play no part. *)
Lemma spec_full_tokens_trunc {X} (toks : list X) (counts : list Z) (m : nat) :
  Forall (fun c => 0 <= c) counts ->
  Py.sum counts <= Z.of_nat m ->
  spec_full_tokens (firstn m toks) counts = spec_full_tokens toks counts.
Proof.
  revert toks m. induction counts as [|c counts IH]; intros toks m Hnn Hm.
  - reflexivity.
  - inversion Hnn as [|? ? Hc Hrest]; subst.
    rewrite sum_cons in Hm. pose proof (sum_nonneg counts Hrest).
    simpl. rewrite firstn_firstn, Nat.min_l by lia.
    rewrite skipn_firstn_comm, IH by (assumption || lia). reflexivity.
Qed.

(** The keys of the boundary dictionary are the entries of the table. *)
Lemma index_dict_None (l : list Z) (k : Z) :
  index_dict l !! k = None <-> ~ In k l.
Proof.
  unfold index_dict, Py.enumerate.
  assert (H : forall (m : gmap Z nat) (start : nat),
             fold_left (fun m p => <[snd p := fst p]> m)
               (Py.enumerate_from start l) m !! k = None
             <-> m !! k = None /\ ~ In k l).
  { induction l as [|a l IH]; intros m start; simpl.
    - tauto.
    - rewrite IH, lookup_insert_None. tauto. }
  rewrite H, lookup_empty. tauto.
Qed.

(** ** The recursive definitions, unfolded *)

Section Properties.

Context {TokenType Formatted : Type}.

Implicit Types (md : PreppedTokenMetadata TokenType).
Implicit Types (seq : PreppedTokenSequence TokenType).
Implicit Types (fv : PreppedFullTokenSequence TokenType Formatted).

(** [_convert_index] calls the conversion function exactly once. *)
Lemma convert_index_at_flat (n : nat) (f : Z -> res Z) (i : Z) :
  _convert_index_at n f i =
  if i <? - Z.of_nat n then (let* r := f (Z.of_nat n) in ok (- r - 1))
  else if i <? 0 then f (Z.of_nat n + i)
  else if i >? Z.of_nat n then f (Z.of_nat n)
  else f i.
Proof.
  assert (Hin : forall j, 0 <= j <= Z.of_nat n -> _convert_index_at n f j = f j).
  { intros j Hj. simp _convert_index_at.
    destruct (Z_lt_dec j (- Z.of_nat n)); [lia|]. simpl.
    destruct (Z_lt_dec j 0); [lia|]. simpl.
    destruct (Z_gt_dec j (Z.of_nat n)); [lia|]. reflexivity. }
  assert (Hgt : forall j, Z.of_nat n < j -> _convert_index_at n f j = f (Z.of_nat n)).
  { intros j Hj. simp _convert_index_at.
    destruct (Z_lt_dec j (- Z.of_nat n)); [lia|]. simpl.
    destruct (Z_lt_dec j 0); [lia|]. simpl.
    destruct (Z_gt_dec j (Z.of_nat n)); [|lia]. simpl. apply Hin. lia. }
  simp _convert_index_at.
  destruct (Z_lt_dec i (- Z.of_nat n)) as [H1|H1]; simpl.
  - rewrite (proj2 (Z.ltb_lt _ _) H1). rewrite Hgt by lia. reflexivity.
  - rewrite (proj2 (Z.ltb_ge _ _)) by lia.
    destruct (Z_lt_dec i 0) as [H2|H2]; simpl.
    + rewrite (proj2 (Z.ltb_lt _ _) H2). apply Hin. lia.
    + rewrite (proj2 (Z.ltb_ge _ _)) by lia.
      destruct (Z_gt_dec i (Z.of_nat n)) as [H3|H3]; simpl.
      * rewrite (proj2 (Z.gtb_lt _ _)) by lia. apply Hin. lia.
      * destruct (i >? Z.of_nat n) eqn:E; [apply Z.gtb_lt in E; lia|reflexivity].
Qed.

Lemma check_full_tokens_step (toks : list string) md (c : cursor) :
  check_full_tokens toks md c =
  match full_over_sub_next toks md Py.join c with
  | Stop => ok tt
  | Throw e => raise e
  | Yield full_token c' =>
      if is_terminal_subtoken full_token
      then check_full_tokens toks md c'
      else raise (AssertionError full_token)
  end.
Proof.
  simp check_full_tokens. unfold inspect.
  generalize (@eq_refl _ (full_over_sub_next toks md Py.join c)).
  generalize (full_over_sub_next toks md Py.join c) at 2 4 5.
  intros s e. destruct s; simpl; reflexivity.
Qed.

(** ** What [__post_init__] checks and builds *)

Lemma post_init_inv (toks : list string) md (weta : bool) seq :
  __post_init__ toks md weta = inr seq ->
  Py.len toks = Py.sum (n_subtokens_per_token md)
  /\ (weta = true -> check_full_tokens toks md cursor0 = ok tt)
  /\ seq = built toks md weta.
Proof.
  unfold __post_init__. intros H.
  destruct (Py.len toks =? Py.sum (n_subtokens_per_token md)) eqn:E;
    simpl in H; [|discriminate].
  apply Z.eqb_eq in E. split; [exact E|].
  destruct weta.
  - destruct (check_full_tokens toks md cursor0) as [e|[]] eqn:C;
      simpl in H; [discriminate|].
    injection H as <-. split; [reflexivity|reflexivity].
  - simpl in H. injection H as <-. split; [discriminate|reflexivity].
Qed.

Lemma post_init_intro (toks : list string) md (weta : bool) :
  Py.len toks = Py.sum (n_subtokens_per_token md) ->
  (weta = true -> check_full_tokens toks md cursor0 = ok tt) ->
  __post_init__ toks md weta = ok (built toks md weta).
Proof.
  intros E C. unfold __post_init__.
  rewrite (proj2 (Z.eqb_eq _ _) E). simpl.
  destruct weta; [rewrite C by reflexivity|]; reflexivity.
Qed.

Lemma slice_nonneg {X} (l : list X) (a c : Z) :
  0 <= a -> 0 <= c ->
  Py.slice l (Some a) (Some (a + c)) = firstn (Z.to_nat c) (skipn (Z.to_nat a) l).
Proof.
  intros Ha Hc. unfold Py.slice, Py.adjust, Py.len.
  rewrite (proj2 (Z.ltb_ge a 0)) by lia.
  rewrite (proj2 (Z.ltb_ge (a + c) 0)) by lia.
  remember (length l) as n eqn:Hn.
  destruct (Z_le_gt_dec a (Z.of_nat n)) as [Han|Han].
  - rewrite (Z.min_l a) by lia.
    destruct (Z_le_gt_dec (a + c) (Z.of_nat n)) as [Hcn|Hcn].
    + rewrite Z.min_l by lia. f_equal. lia.
    + rewrite Z.min_r by lia.
      rewrite !firstn_all2; [reflexivity| |]; rewrite length_skipn, <- Hn; lia.
  - rewrite !Z.min_r by lia.
    rewrite (skipn_all2 (n:=Z.to_nat a)) by (rewrite <- Hn; lia).
    rewrite firstn_nil. replace (Z.of_nat n - Z.of_nat n) with 0 by lia.
    reflexivity.
Qed.

Lemma index_app_middle {X} (pre suf : list X) (x : X) :
  Py.index (pre ++ x :: suf) (Py.len pre) = ok x.
Proof.
  unfold Py.index, Py.len.
  rewrite !(proj2 (Z.ltb_ge (Z.of_nat (length pre)) 0)) by lia.
  rewrite Nat2Z.id, nth_error_app2 by lia.
  rewrite Nat.sub_diag. reflexivity.
Qed.

(** The loop of [__post_init__] visits the spec's full tokens in order. *)
Lemma check_full_tokens_from (toks : list string) md (suf pre : list Z) :
  n_subtokens_per_token md = pre ++ suf ->
  Forall (fun c => 0 <= c) (pre ++ suf) ->
  check_full_tokens toks md
    {| current_full_word := Py.len pre; current_index := Py.sum pre |} =
  match first_unterminated
          (spec_full_tokens (skipn (Z.to_nat (Py.sum pre)) toks) suf) with
  | Some t => raise (AssertionError t)
  | None => ok tt
  end.
Proof.
  revert pre. induction suf as [|c suf IH]; intros pre Hmd Hnn.
  - rewrite check_full_tokens_step. unfold full_over_sub_next.
    cbn [current_full_word current_index].
    rewrite Hmd, app_nil_r.
    rewrite (proj2 (Z.geb_le _ _)) by lia. reflexivity.
  - rewrite check_full_tokens_step. unfold full_over_sub_next.
    cbn [current_full_word current_index].
    rewrite Hmd.
    assert (Hlt : (Py.len pre >=? Py.len (pre ++ c :: suf)) = false).
    { unfold Py.len. rewrite length_app. simpl.
      destruct (Z.geb_spec (Z.of_nat (length pre))
                  (Z.of_nat (length pre + S (length suf)))); [lia|reflexivity]. }
    rewrite Hlt, index_app_middle.
    assert (Hpre : 0 <= Py.sum pre).
    { apply sum_nonneg. apply Forall_app in Hnn. tauto. }
    assert (Hc : 0 <= c).
    { apply Forall_app in Hnn. destruct Hnn as [_ Hs]. inversion Hs; assumption. }
    unfold ok at 1. cbv beta iota. rewrite slice_nonneg by assumption.
    unfold first_unterminated.
    cbn [spec_full_tokens map List.find].
    destruct (is_terminal_subtoken
                (Py.join (firstn (Z.to_nat c) (skipn (Z.to_nat (Py.sum pre)) toks))));
      simpl; [|reflexivity].
    specialize (IH (pre ++ [c])).
    rewrite <- app_assoc in IH. simpl in IH. specialize (IH Hmd Hnn).
    replace (Py.len (pre ++ [c])) with (Py.len pre + 1) in IH
      by (unfold Py.len; rewrite length_app; simpl; lia).
    rewrite sum_app in IH.
    replace (Py.sum [c]) with c in IH by (unfold Py.sum; simpl; lia).
    rewrite IH. unfold first_unterminated.
    rewrite skipn_skipn.
    replace (Z.to_nat c + Z.to_nat (Py.sum pre))%nat
      with (Z.to_nat (Py.sum pre + c)) by lia.
    reflexivity.
Qed.

Lemma check_full_tokens_spec (toks : list string) md :
  Forall (fun c => 0 <= c) (n_subtokens_per_token md) ->
  check_full_tokens toks md cursor0 =
  match first_unterminated (spec_full_tokens toks (n_subtokens_per_token md)) with
  | Some t => raise (AssertionError t)
  | None => ok tt
  end.
Proof.
  intros Hnn.
  exact (check_full_tokens_from toks md (n_subtokens_per_token md) [] eq_refl Hnn).
Qed.

Lemma first_unterminated_Some (full : list (list string)) :
  (exists t, first_unterminated full = Some t) <-> Exists unterminated full.
Proof.
  unfold first_unterminated, unterminated.
  induction full as [|ft full IH]; simpl.
  - split; [intros [t H]; discriminate|intros H; inversion H].
  - destruct (is_terminal_subtoken (Py.join ft)) eqn:E; simpl.
    + rewrite IH. split; [intros H; right; exact H|].
      intros H. inversion H; subst; [congruence|assumption].
    + split; [intros _; left; exact E|intros _; eexists; reflexivity].
Qed.

Lemma first_unterminated_None (full : list (list string)) :
  first_unterminated full = None <-> Forall (fun ft => ~ unterminated ft) full.
Proof.
  unfold first_unterminated, unterminated.
  induction full as [|ft full IH]; simpl.
  - split; [constructor|reflexivity].
  - destruct (is_terminal_subtoken (Py.join ft)) eqn:E; simpl.
    + rewrite IH. split; [intros H; constructor; [congruence|exact H]|].
      intros H. inversion H; assumption.
    + split; [discriminate|]. intros H. inversion H; subst. congruence.
Qed.

(** ** Length of the full-token view *)

Lemma full_len_built (toks : list string) md (weta : bool) :
  Py.len toks = Py.sum (n_subtokens_per_token md) ->
  full_len (built toks md weta) = ok (length (n_subtokens_per_token md)).
Proof.
  intros Hlen.
  unfold full_len, built. cbn [tokens _sub_to_full_token_indices].
  destruct (full_to_sub_last (n_subtokens_per_token md)) as (pre & Hpre & Hl).
  rewrite Hpre, Hlen, index_dict_snoc, Hl. reflexivity.
Qed.

(** C7: for a sequence that passed construction (its token count equals the
    sum of the sub-token counts), the length of the full-token view,
    the lookup [sub_to_full[len(tokens)]], is defined and is the number of
    sub-token counts. *)
Theorem full_len_is_number_of_counts (toks : list string) md (weta : bool) seq :
  __post_init__ toks md weta = inr seq ->
  full_len seq = ok (length (n_subtokens_per_token md)).
Proof.
  intros H. apply post_init_inv in H as (Hlen & _ & ->).
  apply full_len_built, Hlen.
Qed.

(** ** Round trip between the views *)

(** C1: deriving the full-token view of a valid sequence and then the
    sub-token view of that view succeeds and gives back the same tokens, the
    same sub-token counts and the same token types. *)
Theorem full_view_sub_view_round_trip seq (fmt : list string -> Formatted) (rtt : bool) :
  valid seq ->
  exists fv sv,
    full_tokens_view seq fmt rtt = ok fv
    /\ sub_token_view (base fv) = ok sv
    /\ tokens sv = tokens seq
    /\ n_subtokens_per_token (metadata sv) = n_subtokens_per_token (metadata seq)
    /\ token_types (metadata sv) = token_types (metadata seq).
Proof.
  intros Hv. unfold valid in Hv.
  exists {| base := seq; formatter := fmt; return_token_type := rtt |}, seq.
  unfold full_tokens_view, PreppedFullTokenSequence_new, sub_token_view,
    PreppedSubTokenSequence_new.
  rewrite Hv. cbn [bind base]. rewrite Hv. auto.
Qed.

(** ** Construction *)

(** C8: with sub-token counts that are not negative, construction raises
    the length-mismatch error exactly when the token count differs from the
    sum of the counts; once the lengths agree it raises the
    missing-terminal-marker error exactly when the flag is set and some full
    token, joined, does not end with the marker; in every other case it
    returns the instance with both tables built. *)
Theorem construction_validation (toks : list string) md (weta : bool) :
  Forall (fun c => 0 <= c) (n_subtokens_per_token md) ->
  ((exists a b, __post_init__ toks md weta = raise (ValueError a b))
     <-> Py.len toks <> Py.sum (n_subtokens_per_token md))
  /\ (Py.len toks <> Py.sum (n_subtokens_per_token md) ->
        __post_init__ toks md weta
        = raise (ValueError (Py.len toks) (Py.sum (n_subtokens_per_token md))))
  /\ ((exists t, __post_init__ toks md weta = raise (AssertionError t))
        <-> Py.len toks = Py.sum (n_subtokens_per_token md)
            /\ weta = true
            /\ Exists unterminated (spec_full_tokens toks (n_subtokens_per_token md)))
  /\ (Py.len toks = Py.sum (n_subtokens_per_token md) ->
      (weta = true ->
       Forall (fun ft => ~ unterminated ft)
         (spec_full_tokens toks (n_subtokens_per_token md))) ->
      __post_init__ toks md weta = ok (built toks md weta)
      /\ valid (built toks md weta)).
Proof.
  intros Hnn.
  pose proof (check_full_tokens_spec toks md Hnn) as Hchk.
  assert (Hbad : Py.len toks <> Py.sum (n_subtokens_per_token md) ->
                 __post_init__ toks md weta
                 = raise (ValueError (Py.len toks) (Py.sum (n_subtokens_per_token md)))).
  { intros Hne. unfold __post_init__.
    destruct (Z.eqb_spec (Py.len toks) (Py.sum (n_subtokens_per_token md)));
      [contradiction|reflexivity]. }
  assert (Hgood : Py.len toks = Py.sum (n_subtokens_per_token md) ->
                  __post_init__ toks md weta =
                  let* _ := (if weta then check_full_tokens toks md cursor0 else ok tt) in
                  ok (built toks md weta)).
  { intros He. unfold __post_init__.
    rewrite (proj2 (Z.eqb_eq _ _) He). reflexivity. }
  repeat split.
  - intros (a & b & H) He. rewrite (Hgood He) in H.
    destruct weta; [rewrite Hchk in H|];
      [destruct (first_unterminated _)|]; discriminate.
  - intros Hne. eauto.
  - exact Hbad.
  - destruct H as [t H].
    destruct (Z.eq_dec (Py.len toks) (Py.sum (n_subtokens_per_token md))) as [He|Hne];
      [exact He|rewrite (Hbad Hne) in H; discriminate].
  - destruct H as [t H].
    destruct weta; [reflexivity|].
    destruct (Z.eq_dec (Py.len toks) (Py.sum (n_subtokens_per_token md))) as [He|Hne];
      [rewrite (Hgood He) in H|rewrite (Hbad Hne) in H]; discriminate.
  - destruct H as [t H].
    destruct (Z.eq_dec (Py.len toks) (Py.sum (n_subtokens_per_token md))) as [He|Hne];
      [|rewrite (Hbad Hne) in H; discriminate].
    rewrite (Hgood He) in H. destruct weta; [|discriminate].
    rewrite Hchk in H. apply first_unterminated_Some.
    destruct (first_unterminated _) as [t'|]; [eauto|discriminate].
  - intros (He & -> & Hex). rewrite (Hgood He), Hchk.
    apply first_unterminated_Some in Hex as [t Ht]. rewrite Ht. eauto.
  - rewrite (Hgood H). destruct weta; [|reflexivity].
    rewrite Hchk. rewrite (proj2 (first_unterminated_None _) (H0 eq_refl)).
    reflexivity.
  - unfold valid. cbn [built tokens metadata word_end_token_added].
    rewrite (Hgood H). destruct weta; [|reflexivity].
    rewrite Hchk. rewrite (proj2 (first_unterminated_None _) (H0 eq_refl)).
    reflexivity.
Qed.

(** ** Sub-token slices that cut through a full token *)

Lemma sub_to_full_index_result seq (bound : option Z) :
  _sub_to_full_index seq (sub_len seq) bound =
  match bound with
  | None => ok None
  | Some i =>
      let n := length (tokens seq) in
      match _sub_to_full_token_indices seq !! normalized n i with
      | Some k =>
          ok (Some (if i <? - Z.of_nat n then - Z.of_nat k - 1 else Z.of_nat k))
      | None => raise (KeyError (normalized n i))
      end
  end.
Proof.
  destruct bound as [i|]; [|reflexivity].
  unfold _sub_to_full_index, _convert_index, sub_len. cbn [bind ok].
  rewrite convert_index_at_flat. unfold normalized. cbv zeta.
  destruct (i <? - Z.of_nat (length (tokens seq))).
  - destruct (_sub_to_full_token_indices seq !! Z.of_nat (length (tokens seq)));
      reflexivity.
  - destruct (i <? 0).
    + destruct (_sub_to_full_token_indices seq !! (Z.of_nat (length (tokens seq)) + i));
        reflexivity.
    + destruct (i >? Z.of_nat (length (tokens seq)));
        match goal with
        | |- context [_sub_to_full_token_indices seq !! ?k] =>
            destruct (_sub_to_full_token_indices seq !! k); reflexivity
        end.
Qed.

Lemma sub_to_full_index_misaligned seq (bound : option Z) :
  misaligned seq bound ->
  exists k, _sub_to_full_index seq (sub_len seq) bound = raise (KeyError k).
Proof.
  intros H. rewrite sub_to_full_index_result.
  destruct bound as [i|]; [|contradiction].
  cbv zeta. unfold misaligned in H. rewrite H. eauto.
Qed.

Lemma sub_to_full_index_error seq (bound : option Z) (e : exn) :
  _sub_to_full_index seq (sub_len seq) bound = inl e ->
  exists k, e = KeyError k.
Proof.
  rewrite sub_to_full_index_result.
  destruct bound as [i|]; [|discriminate].
  cbv zeta.
  destruct (_sub_to_full_token_indices seq !! _); [discriminate|].
  intros [= <-]. eauto.
Qed.

(** On a constructed sequence a bound is misaligned exactly when, once
    normalized, it is no entry of the prefix-sum table: it falls strictly
    inside a full token. *)
Lemma misaligned_built (toks : list string) md (weta : bool) (i : Z) :
  misaligned (built toks md weta) (Some i)
  <-> ~ In (normalized (length toks) i) (0 :: cum_sum (n_subtokens_per_token md)).
Proof. unfold misaligned, built. cbn [tokens _sub_to_full_token_indices]. apply index_dict_None. Qed.

(** C4: when the sub-to-full translation of either bound of a sub-token
    slice fails, the slice is an unsynchronized carrier that holds exactly
    [tokens[start:stop]] and no metadata. *)
Theorem misaligned_slice_degrades seq (start stop : option Z) :
  misaligned seq start \/ misaligned seq stop ->
  sub_getitem (Formatted:=Formatted) seq (Slice start stop None)
  = ok (VSurrogate {| surrogate_tokens := Py.slice (tokens seq) start stop |}).
Proof.
  intros H. unfold sub_getitem. cbn [as_slice bind ok fst snd].
  destruct (_sub_to_full_index seq (sub_len seq) start) as [e|full_start] eqn:Es.
  - apply sub_to_full_index_error in Es as [k ->]. reflexivity.
  - destruct H as [H|H].
    + apply sub_to_full_index_misaligned in H as [k H].
      rewrite H in Es. discriminate.
    + apply sub_to_full_index_misaligned in H as [k H].
      rewrite H. reflexivity.
Qed.

(** ** Slices with a step *)

Lemma check_full_tokens_error (toks : list string) md (c : cursor) (e : exn) :
  check_full_tokens toks md c = inl e ->
  e = IndexError \/ exists t, e = AssertionError t.
Proof.
  remember (Z.to_nat (Py.len (n_subtokens_per_token md) - current_full_word c))
    as m eqn:Hm.
  revert c Hm. induction m as [m IH] using lt_wf_ind. intros c Hm.
  rewrite check_full_tokens_step. unfold full_over_sub_next.
  destruct (current_full_word c >=? Py.len (n_subtokens_per_token md)) eqn:Hge;
    [discriminate|].
  destruct (Py.index (n_subtokens_per_token md) (current_full_word c)) as [e'|n] eqn:Hi.
  - unfold Py.index in Hi.
    repeat match type of Hi with
           | context [if ?b then _ else _] => destruct b
           | context [match ?o with Some _ => _ | None => _ end] => destruct o
           end; try discriminate; injection Hi as <-; intros [= <-]; auto.
  - destruct (is_terminal_subtoken _); [|intros [= <-]; eauto].
    apply (IH (Z.to_nat (Py.len (n_subtokens_per_token md)
                         - (current_full_word c + 1)))); [|reflexivity].
    destruct (Z.geb_spec (current_full_word c) (Py.len (n_subtokens_per_token md)));
      [discriminate|]. subst m. lia.
Qed.

Lemma post_init_error (toks : list string) md (weta : bool) (e : exn) :
  __post_init__ toks md weta = inl e ->
  e = IndexError \/ (exists t, e = AssertionError t) \/ exists a b, e = ValueError a b.
Proof.
  unfold __post_init__.
  destruct (negb _); [intros [= <-]; eauto|].
  destruct weta; [|discriminate].
  destruct (check_full_tokens toks md cursor0) as [e'|[]] eqn:C; [|discriminate].
  intros [= <-]. apply check_full_tokens_error in C. tauto.
Qed.

(** ** Slices of a full-token view *)

Lemma normalized_range (n : nat) (i : Z) : 0 <= normalized n i <= Z.of_nat n.
Proof.
  unfold normalized.
  destruct (Z.ltb_spec i (- Z.of_nat n)); [lia|].
  destruct (Z.ltb_spec i 0); [lia|].
  rewrite Z.gtb_ltb. destruct (Z.ltb_spec (Z.of_nat n) i); lia.
Qed.

Lemma full_to_sub_index_built (toks : list string) md (weta : bool) (bound : option Z) :
  _full_to_sub_index (built toks md weta)
    (ok (length (n_subtokens_per_token md))) bound
  = ok (sub_bound md bound).
Proof.
  destruct bound as [i|]; [|reflexivity].
  unfold _full_to_sub_index, _convert_index, sub_bound, offset.
  cbn [bind ok built _full_to_sub_token_indices]. cbv zeta.
  set (n := length (n_subtokens_per_token md)).
  rewrite convert_index_at_flat.
  pose proof (normalized_range n i) as Hr. unfold normalized in *.
  assert (Hix : forall z, 0 <= z <= Z.of_nat n ->
            Py.index (0 :: cum_sum (n_subtokens_per_token md)) z
            = inr (Py.sum (firstn (Z.to_nat z) (n_subtokens_per_token md)))).
  { intros z Hz. rewrite <- (Z2Nat.id z) at 1 by lia.
    apply index_full_to_sub. fold n. lia. }
  destruct (i <? - Z.of_nat n).
  - rewrite Hix by lia. rewrite Nat2Z.id. reflexivity.
  - destruct (i <? 0); [rewrite Hix by lia; reflexivity|].
    destruct (i >? Z.of_nat n); rewrite Hix by lia; reflexivity.
Qed.

Lemma offset_0 md : offset md 0 = 0.
Proof. reflexivity. Qed.

Lemma offset_all md :
  offset md (length (n_subtokens_per_token md)) = Py.sum (n_subtokens_per_token md).
Proof. unfold offset. rewrite firstn_all. reflexivity. Qed.

Lemma offset_range md (k : nat) :
  Forall (fun c => 0 <= c) (n_subtokens_per_token md) ->
  0 <= offset md k <= Py.sum (n_subtokens_per_token md).
Proof.
  intros Hnn. unfold offset. split; [apply sum_firstn_nonneg, Hnn|].
  destruct (Nat.le_gt_cases k (length (n_subtokens_per_token md))) as [Hk|Hk].
  - rewrite <- (firstn_all (n_subtokens_per_token md)) at 2.
    apply sum_firstn_mono; assumption.
  - rewrite firstn_all2 by lia. lia.
Qed.

(** Translated to sub-token offsets and adjusted by the list slice, the
    bounds of a full-token slice are the offsets of the full tokens the
    slice runs between. *)
Lemma adjust_sub_bound_lo md (start : option Z) :
  Forall (fun c => 0 <= c) (n_subtokens_per_token md) ->
  Py.adjust (Py.sum (n_subtokens_per_token md)) 0 (sub_bound md start)
  = offset md (slice_lo (length (n_subtokens_per_token md)) start).
Proof.
  intros Hnn. destruct start as [i|]; [|reflexivity].
  unfold sub_bound, slice_lo, normalized, Py.adjust. cbv zeta.
  set (n := length (n_subtokens_per_token md)).
  pose proof (offset_all md) as Hall. fold n in Hall.
  destruct (Z.ltb_spec i (- Z.of_nat n)) as [H1|H1].
  - pose proof (offset_range md n Hnn).
    destruct (Z.ltb_spec (- offset md n - 1) 0); [|lia].
    destruct (Z.ltb_spec i 0); [|lia].
    replace (Z.to_nat (Z.max (i + Z.of_nat n) 0)) with 0%nat by lia.
    rewrite offset_0. lia.
  - destruct (Z.ltb_spec i 0) as [H2|H2].
    + pose proof (offset_range md (Z.to_nat (Z.of_nat n + i)) Hnn).
      destruct (Z.ltb_spec (offset md (Z.to_nat (Z.of_nat n + i))) 0); [lia|].
      replace (Z.to_nat (Z.max (i + Z.of_nat n) 0)) with (Z.to_nat (Z.of_nat n + i))
        by lia.
      lia.
    + rewrite Z.gtb_ltb. destruct (Z.ltb_spec (Z.of_nat n) i) as [H3|H3].
      * rewrite Nat2Z.id.
        pose proof (offset_range md n Hnn).
        destruct (Z.ltb_spec (offset md n) 0); [lia|].
        replace (Z.to_nat (Z.min i (Z.of_nat n))) with n by lia. lia.
      * pose proof (offset_range md (Z.to_nat i) Hnn).
        destruct (Z.ltb_spec (offset md (Z.to_nat i)) 0); [lia|].
        replace (Z.to_nat (Z.min i (Z.of_nat n))) with (Z.to_nat i) by lia. lia.
Qed.

Lemma adjust_sub_bound_hi md (stop : option Z) :
  Forall (fun c => 0 <= c) (n_subtokens_per_token md) ->
  Py.adjust (Py.sum (n_subtokens_per_token md)) (Py.sum (n_subtokens_per_token md))
    (sub_bound md stop)
  = offset md (slice_hi (length (n_subtokens_per_token md)) stop).
Proof.
  intros Hnn. destruct stop as [i|].
  - exact (adjust_sub_bound_lo md (Some i) Hnn).
  - unfold slice_hi. cbn [sub_bound Py.adjust]. rewrite Nat2Z.id, offset_all.
    reflexivity.
Qed.

Lemma valid_built (toks : list string) md (weta : bool) :
  valid (built toks md weta) <->
  Py.len toks = Py.sum (n_subtokens_per_token md)
  /\ (weta = true -> check_full_tokens toks md cursor0 = ok tt).
Proof.
  unfold valid. cbn [built tokens metadata word_end_token_added]. split.
  - intros H. apply post_init_inv in H. tauto.
  - intros [H1 H2]. apply post_init_intro; assumption.
Qed.

Lemma slice_tokens_built (toks : list string) md (start stop : option Z) :
  Forall (fun c => 0 <= c) (n_subtokens_per_token md) ->
  Py.len toks = Py.sum (n_subtokens_per_token md) ->
  Py.slice toks (sub_bound md start) (sub_bound md stop)
  = tokens_between toks md
      (slice_lo (length (n_subtokens_per_token md)) start)
      (slice_hi (length (n_subtokens_per_token md)) stop).
Proof.
  intros Hnn Hlen. unfold Py.slice. cbv zeta. rewrite Hlen.
  rewrite adjust_sub_bound_lo, adjust_sub_bound_hi by assumption.
  reflexivity.
Qed.

Lemma adjust_nonneg (n : nat) (d : Z) (b : option Z) :
  0 <= d -> 0 <= Py.adjust (Z.of_nat n) d b.
Proof.
  intros Hd. destruct b as [i|]; [|exact Hd]. unfold Py.adjust.
  destruct (i <? 0) eqn:E; [lia|]. apply Z.ltb_ge in E. lia.
Qed.

Lemma slice_between {X} (l : list X) (start stop : option Z) :
  Py.slice l start stop
  = firstn (slice_hi (length l) stop - slice_lo (length l) start)
      (skipn (slice_lo (length l) start) l).
Proof.
  unfold Py.slice, slice_lo, slice_hi, Py.len. cbv zeta.
  pose proof (adjust_nonneg (length l) 0 start ltac:(lia)).
  rewrite Z2Nat.inj_sub by assumption. reflexivity.
Qed.

(** A slice of a valid full-token view passes the checks of construction. *)
Lemma tokens_between_consistent (toks : list string) md (weta : bool)
    (start stop : option Z) :
  Forall (fun c => 0 <= c) (n_subtokens_per_token md) ->
  valid (built toks md weta) ->
  let n := length (n_subtokens_per_token md) in
  valid (built (tokens_between toks md (slice_lo n start) (slice_hi n stop))
           (slice_metadata md start stop) weta).
Proof.
  intros Hnn Hv n. apply valid_built in Hv as [Hlen Hchk]. apply valid_built.
  set (lo := slice_lo n start). set (hi := slice_hi n stop).
  assert (Hcounts : n_subtokens_per_token (slice_metadata md start stop)
                    = firstn (hi - lo) (skipn lo (n_subtokens_per_token md))).
  { unfold slice_metadata. cbn [n_subtokens_per_token]. apply slice_between. }
  assert (Hnn' : Forall (fun c => 0 <= c)
                   (firstn (hi - lo) (skipn lo (n_subtokens_per_token md)))).
  { apply Forall_take, Forall_drop, Hnn. }
  pose proof (offset_range md lo Hnn) as Hlo.
  pose proof (offset_range md hi Hnn) as Hhi.
  assert (Hsum : Py.sum (firstn (hi - lo) (skipn lo (n_subtokens_per_token md)))
                 = Z.of_nat (Z.to_nat (offset md hi - offset md lo))).
  { rewrite sum_firstn_skipn. fold (offset md lo).
    destruct (Nat.le_gt_cases lo hi) as [Hle|Hgt].
    - replace (lo + (hi - lo))%nat with hi by lia. fold (offset md hi).
      pose proof (sum_firstn_mono _ lo hi Hnn Hle) as Hm.
      fold (offset md lo) in Hm. fold (offset md hi) in Hm. lia.
    - replace (lo + (hi - lo))%nat with lo by lia. fold (offset md lo).
      pose proof (sum_firstn_mono _ hi lo Hnn ltac:(lia)) as Hm.
      fold (offset md lo) in Hm. fold (offset md hi) in Hm. lia. }
  split.
  - rewrite Hcounts, Hsum. unfold tokens_between, Py.len.
    rewrite length_firstn, length_skipn. unfold Py.len in Hlen. lia.
  - intros Hw. specialize (Hchk Hw).
    rewrite check_full_tokens_spec in Hchk by assumption.
    rewrite check_full_tokens_spec by (rewrite Hcounts; assumption).
    destruct (first_unterminated (spec_full_tokens toks (n_subtokens_per_token md)))
      eqn:Hall; [discriminate|].
    apply first_unterminated_None in Hall.
    rewrite (proj2 (first_unterminated_None _)); [reflexivity|].
    rewrite Hcounts. unfold tokens_between.
    rewrite spec_full_tokens_trunc by (assumption || lia).
    rewrite <- spec_full_tokens_firstn.
    fold (offset md lo). unfold offset.
    rewrite <- spec_full_tokens_skipn by assumption.
    apply Forall_take, Forall_drop, Hall.
Qed.

(** Slicing a valid full-token view gives the valid view over the full
    tokens the slice runs between, with the metadata sliced alike. *)
Lemma full_getitem_slice (toks : list string) md (weta : bool)
    (fmt : list string -> Formatted) (rtt : bool) (start stop : option Z) :
  Forall (fun c => 0 <= c) (n_subtokens_per_token md) ->
  valid (built toks md weta) ->
  let n := length (n_subtokens_per_token md) in
  full_getitem {| base := built toks md weta; formatter := fmt;
                  return_token_type := rtt |} (Slice start stop None)
  = ok {| base := built (tokens_between toks md (slice_lo n start) (slice_hi n stop))
                    (slice_metadata md start stop) weta;
          formatter := fmt; return_token_type := rtt |}.
Proof.
  intros Hnn Hv n. subst n.
  pose proof (tokens_between_consistent toks md weta start stop Hnn Hv) as Hv'.
  cbv zeta in Hv'.
  apply valid_built in Hv as [Hlen Hchk].
  unfold full_getitem. cbn [as_slice bind ok fst snd base formatter return_token_type].
  rewrite (full_len_built toks md weta Hlen).
  rewrite !full_to_sub_index_built. cbn [bind ok].
  cbn [built tokens metadata word_end_token_added].
  rewrite slice_tokens_built by assumption.
  unfold PreppedFullTokenSequence_new.
  unfold valid in Hv'. cbn [built tokens metadata word_end_token_added] in Hv'.
  rewrite Hv'. reflexivity.
Qed.

(** C5: on a valid full-token view of length two, [view[-1:]] is the view
    over exactly the last full token, [view[1:1]] and [view[-2:0]] are empty
    views, and [view[-10:10]] is the whole view. *)
Theorem full_view_of_two_slices (toks : list string) (c0 c1 : Z)
    (ty0 ty1 : TokenType) (weta : bool) (fmt : list string -> Formatted) (rtt : bool) :
  0 <= c0 -> 0 <= c1 ->
  valid (built toks {| n_subtokens_per_token := [c0; c1];
                       token_types := [ty0; ty1] |} weta) ->
  let view := {| base := built toks {| n_subtokens_per_token := [c0; c1];
                                       token_types := [ty0; ty1] |} weta;
                 formatter := fmt; return_token_type := rtt |} in
  let empty := {| base := built [] {| n_subtokens_per_token := [];
                                      token_types := [] |} weta;
                  formatter := fmt; return_token_type := rtt |} in
  full_getitem view (Slice (Some (-1)) None None)
  = ok {| base := built (nth 1 (spec_full_tokens toks [c0; c1]) [])
                    {| n_subtokens_per_token := [c1]; token_types := [ty1] |} weta;
          formatter := fmt; return_token_type := rtt |}
  /\ full_getitem view (Slice (Some 1) (Some 1) None) = ok empty
  /\ full_getitem view (Slice (Some (-2)) (Some 0) None) = ok empty
  /\ full_getitem view (Slice (Some (-10)) (Some 10) None) = ok view.
Proof.
  intros H0 H1 Hv view empty. subst view empty.
  set (md := {| n_subtokens_per_token := [c0; c1]; token_types := [ty0; ty1] |}).
  assert (Hnn : Forall (fun c => 0 <= c) (n_subtokens_per_token md))
    by (repeat constructor; assumption).
  pose proof (proj1 (proj1 (valid_built _ _ _) Hv)) as Hlen.
  unfold Py.len in Hlen. cbn [md n_subtokens_per_token] in Hlen.
  rewrite !sum_cons in Hlen. change (Py.sum []) with 0 in Hlen.
  assert (Ho1 : offset md 1 = c0) by (unfold offset; cbn; unfold Py.sum; cbn; lia).
  assert (Ho2 : offset md 2 = c0 + c1) by (unfold offset; cbn; unfold Py.sum; cbn; lia).
  assert (Heq : forall t1 t2 (m1 m2 : PreppedTokenMetadata TokenType),
            t1 = t2 -> m1 = m2 ->
            ok {| base := built t1 m1 weta; formatter := fmt;
                  return_token_type := rtt |}
            = ok {| base := built t2 m2 weta; formatter := fmt;
                    return_token_type := rtt |})
    by (intros t1 t2 m1 m2 -> ->; reflexivity).
  repeat split; rewrite (full_getitem_slice toks md weta fmt rtt _ _ Hnn Hv);
    cbv zeta; apply Heq; try reflexivity.
  - change (slice_lo _ _) with 1%nat. change (slice_hi _ _) with 2%nat.
    unfold tokens_between. rewrite Ho1, Ho2. cbn [spec_full_tokens nth].
    f_equal. lia.
  - change (slice_lo _ _) with 1%nat. change (slice_hi _ _) with 1%nat.
    unfold tokens_between. rewrite Z.sub_diag. reflexivity.
  - change (slice_lo _ _) with 0%nat. change (slice_hi _ _) with 2%nat.
    unfold tokens_between. rewrite Ho2, offset_0.
    change (skipn (Z.to_nat 0) toks) with toks.
    rewrite firstn_all2 by lia. reflexivity.
Qed.

(** ** Slices that name a step *)

Lemma index_error {X} (l : list X) (i : Z) (e : exn) :
  Py.index l i = inl e -> e = IndexError.
Proof.
  unfold Py.index.
  destruct (_ <? 0); [intros [= <-]; reflexivity|].
  destruct (nth_error l _); [discriminate|intros [= <-]; reflexivity].
Qed.

Lemma convert_index_error (P : exn -> Prop) (len_self : res nat)
    (bound : option Z) (f : Z -> res Z) (e : exn) :
  (forall e', len_self = inl e' -> P e') ->
  (forall z e', f z = inl e' -> P e') ->
  _convert_index len_self bound f = inl e -> P e.
Proof.
  intros Hl Hf. destruct bound as [i|]; [|discriminate].
  unfold _convert_index. destruct len_self as [e'|n]; cbn [bind].
  - intros [= <-]. apply Hl. reflexivity.
  - rewrite convert_index_at_flat.
    repeat match goal with
           | |- context [if ?b then _ else _] => destruct b
           end;
      match goal with
      | |- context [f ?z] => destruct (f z) as [e'|r] eqn:E
      end; cbn [bind ok]; try discriminate; intros [= <-]; eapply Hf, E.
Qed.

Lemma full_getitem_no_type_error fv (start stop : option Z) (e : exn) :
  full_getitem fv (Slice start stop None) = inl e -> ~ is_type_error e.
Proof.
  unfold full_getitem. cbn [as_slice bind ok fst snd].
  assert (Hconv : forall bound e',
            _full_to_sub_index (base fv) (full_len (base fv)) bound = inl e' ->
            ~ is_type_error e').
  { intros bound e'. unfold _full_to_sub_index.
    apply (convert_index_error (fun x => ~ is_type_error x)).
    - unfold full_len. intros x.
      destruct (_ !! _); [discriminate|intros [= <-]; exact id].
    - intros z x Hx. apply index_error in Hx as ->. exact id. }
  destruct (_full_to_sub_index _ _ start) as [e1|s1] eqn:E1; cbn [bind].
  { intros [= <-]. eapply Hconv, E1. }
  destruct (_full_to_sub_index _ _ stop) as [e2|s2] eqn:E2; cbn [bind].
  { intros [= <-]. eapply Hconv, E2. }
  unfold PreppedFullTokenSequence_new.
  destruct (__post_init__ _ _ _) as [e3|b] eqn:E3; cbn [bind ok]; [|discriminate].
  intros [= <-]. apply post_init_error in E3 as [->|[[t ->]|(a & b & ->)]]; exact id.
Qed.

Lemma sub_getitem_no_type_error seq (start stop : option Z) (e : exn) :
  sub_getitem (Formatted:=Formatted) seq (Slice start stop None) = inl e ->
  ~ is_type_error e.
Proof.
  unfold sub_getitem. cbn [as_slice bind ok fst snd].
  destruct (_sub_to_full_index seq (sub_len seq) start) as [e1|s1] eqn:E1; cbn [bind].
  { apply sub_to_full_index_error in E1 as [k ->]. discriminate. }
  destruct (_sub_to_full_index seq (sub_len seq) stop) as [e2|s2] eqn:E2; cbn [bind].
  { apply sub_to_full_index_error in E2 as [k ->]. discriminate. }
  unfold PreppedSubTokenSequence_new.
  destruct (__post_init__ _ _ _) as [e3|b] eqn:E3; [|discriminate].
  apply post_init_error in E3 as [->|[[t ->]|(a & b & ->)]];
    intros [= <-]; exact id.
Qed.

Lemma valid_is_built seq :
  valid seq ->
  seq = built (tokens seq) (metadata seq) (word_end_token_added seq).
Proof. intros H. apply post_init_inv in H. tauto. Qed.

(** C6, as amended: on either view a slice that names a step, whatever the
    step, one included, is rejected at once with the unsupported-step error;
    a slice without a step and an integer index are never rejected that
    way, and on a valid full-token view with counts that are not negative a
    slice without a step always yields a valid view. *)
Theorem slice_with_step_is_rejected seq fv (start stop : option Z) :
  (forall k : Z,
      sub_getitem (Formatted:=Formatted) seq (Slice start stop (Some k))
      = raise unsupported_step
      /\ full_getitem fv (Slice start stop (Some k)) = raise unsupported_step)
  /\ (forall e, sub_getitem (Formatted:=Formatted) seq (Slice start stop None) = inl e ->
                ~ is_type_error e)
  /\ (forall e, full_getitem fv (Slice start stop None) = inl e -> ~ is_type_error e)
  /\ (forall i e, sub_getitem (Formatted:=Formatted) seq (Int i) = inl e ->
                  ~ is_type_error e)
  /\ (forall i e, full_getitem fv (Int i) = inl e -> ~ is_type_error e)
  /\ (valid (base fv) ->
      Forall (fun c => 0 <= c) (n_subtokens_per_token (metadata (base fv))) ->
      exists fv', full_getitem fv (Slice start stop None) = ok fv'
                  /\ valid (base fv')).
Proof.
  split; [intros k; split; reflexivity|].
  split; [apply sub_getitem_no_type_error|].
  split; [apply full_getitem_no_type_error|].
  split; [intros i; apply (sub_getitem_no_type_error seq (Some i) (Some (i + 1)))|].
  split; [intros i; apply (full_getitem_no_type_error fv (Some i) (Some (i + 1)))|].
  intros Hv Hnn. destruct fv as [b fmt rtt]. cbn [base] in *.
  rewrite (valid_is_built b Hv) in Hv |- *.
  cbn [built metadata] in Hnn.
  eexists. split; [apply full_getitem_slice; assumption|].
  cbn [base]. apply (tokens_between_consistent _ _ _ start stop Hnn Hv).
Qed.

(** ** Concatenation into a surrogate *)

(** C3, at the failing operands: a surrogate concatenated with a view of
    either kind raises [TypeError]; only another surrogate is accepted. *)
Theorem surrogate_add_rejects_views (self : SurrogatePreppedTokenSequence) :
  (forall seq, surrogate_add (TokenType:=TokenType) (Formatted:=Formatted)
                 self (VSub seq) = raise (TypeError ""))
  /\ (forall fv, surrogate_add (TokenType:=TokenType) (Formatted:=Formatted)
                   self (VFull fv) = raise (TypeError ""))
  /\ (forall o, surrogate_add (TokenType:=TokenType) (Formatted:=Formatted)
                  self (VSurrogate o)
                = ok {| surrogate_tokens := surrogate_tokens self ++ surrogate_tokens o |}).
Proof. repeat split. Qed.

(** ** Assignment into a full-token view *)

(** C9: in a valid full-token view over two one-sub-token full tokens
    [t0] and [t1], assigning to index 1 the one-element view read at index 0
    leaves the tokens [t0; t0]; assigning anything that is not a full-token
    view raises the invalid-operand [TypeError] and leaves the view as it
    was. *)
Theorem assign_full_token (t0 t1 : string) (ty0 ty1 : TokenType) (weta : bool)
    (fmt : list string -> Formatted) (rtt : bool) :
  valid (built [t0; t1] {| n_subtokens_per_token := [1; 1];
                           token_types := [ty0; ty1] |} weta) ->
  let view := {| base := built [t0; t1] {| n_subtokens_per_token := [1; 1];
                                           token_types := [ty0; ty1] |} weta;
                 formatter := fmt; return_token_type := rtt |} in
  (exists elm view',
      full_getitem view (Int 0) = ok elm
      /\ tokens (base elm) = [t0]
      /\ full_setitem view 1 (VFull elm) = (ok tt, view')
      /\ tokens (base view') = [t0; t0])
  /\ (forall (key : Z) (v : value TokenType Formatted),
        (forall x, v <> VFull x) ->
        full_setitem view key v
        = (raise (TypeError "Can assign only PreppedFullTokenSequence instance"),
           view)).
Proof.
  intros Hv view. subst view.
  set (md := {| n_subtokens_per_token := [1; 1]; token_types := [ty0; ty1] |}) in *.
  assert (Hnn : Forall (fun c => 0 <= c) (n_subtokens_per_token md))
    by (repeat constructor; lia).
  pose proof (full_getitem_slice [t0; t1] md weta fmt rtt) as Hget.
  cbv zeta in Hget.
  split.
  - eexists. eexists.
    split; [exact (Hget (Some 0) (Some 1) Hnn Hv)|].
    split; [reflexivity|].
    unfold full_setitem.
    rewrite (Hget None (Some 1) Hnn Hv).
    rewrite (Hget (Some (1 + 1)) None Hnn Hv).
    cbn [bind ok]. split; reflexivity.
  - intros key v Hne. destruct v; try reflexivity.
    exfalso. eapply Hne. reflexivity.
Qed.

(** ** Alignment iterators *)

(** C10: with sub-token counts [1; 2], broadcasting full-granularity data
    [a; b] over the sub-token view yields [a; b; b], and grouping
    sub-granularity data [a; b; c] by the full-token view yields
    [[a]; [b; c]]. *)
Theorem alignment_iterators {X} seq fv (a b c : X) (fuel : nat) :
  n_subtokens_per_token (metadata seq) = [1; 2] ->
  n_subtokens_per_token (metadata (base fv)) = [1; 2] ->
  to_list (sub_get_iterator seq [a; b] true) (4 + fuel) = Finished [a; b; b]
  /\ exists it,
       full_get_iterator fv [a; b; c] false (fun x => x) = inr it
       /\ to_list it (3 + fuel) = Finished [[a]; [b; c]].
Proof.
  intros Hs Hf. split.
  - unfold to_list, sub_get_iterator, _SubOverFullTokenIterator.
    cbn [it_next it_start]. unfold sub_over_full_next.
    rewrite Hs. reflexivity.
  - eexists. split; [reflexivity|].
    unfold to_list, _FullOverSubTokenIterator.
    cbn [it_next it_start]. unfold full_over_sub_next.
    rewrite Hf. reflexivity.
Qed.
End Properties.

Lemma doctest_sequence_valid : valid Doctest.prepped_tokens.
Proof. reflexivity. Qed.

Lemma round_trip_witness :
  exists fv sv,
    full_tokens_view Doctest.prepped_tokens Py.join false = ok fv
    /\ sub_token_view (base fv) = ok sv
    /\ tokens sv = tokens Doctest.prepped_tokens
    /\ n_subtokens_per_token (metadata sv)
       = n_subtokens_per_token (metadata Doctest.prepped_tokens)
    /\ token_types (metadata sv) = token_types (metadata Doctest.prepped_tokens).
Proof.
  apply (full_view_sub_view_round_trip Doctest.prepped_tokens Py.join false).
  reflexivity.
Defined.

Lemma full_len_witness : full_len Doctest.prepped_tokens = ok 2%nat.
Proof.
  apply (full_len_is_number_of_counts
           ["hi</t>"; "the"; "re</t>"]%string Doctest.metadata12 true).
  reflexivity.
Defined.

(** C2, at the failing input: after [hi.add(there)] the receiver holds both
    tokens and both counts, but its tables are still those of [hi] alone, so
    they differ from the tables of the merged arrays and [len] raises
    [KeyError] where the sum of the two lengths was expected. *)
Theorem concatenation_keeps_stale_tables :
  exists r,
    full_add Doctest.hi (VFull Doctest.there) = ok (VFull r)
    /\ tokens (base r) = ["hi</t>"; "there</t>"]%string
    /\ n_subtokens_per_token (metadata (base r)) = [1; 1]
    /\ valid (base Doctest.hi) /\ valid (base Doctest.there)
    /\ full_len (base Doctest.hi) = ok 1%nat
    /\ full_len (base Doctest.there) = ok 1%nat
    /\ _full_to_sub_token_indices (base r) = [0; 1]
    /\ 0 :: cum_sum (n_subtokens_per_token (metadata (base r))) = [0; 1; 2]
    /\ full_len (base r) = raise (KeyError 2).
Proof. eexists. repeat split. Qed.

Lemma degradation_witness :
  sub_getitem (Formatted:=string) Doctest.prepped_tokens
    (Slice (Some 1) (Some 2) None)
  = ok (VSurrogate {| surrogate_tokens := ["the"%string] |}).
Proof.
  exact (misaligned_slice_degrades Doctest.prepped_tokens (Some 1) (Some 2)
           (or_intror eq_refl)).
Defined.

Lemma full_view_of_two_slices_witness :
  let empty := {| base := built [] {| n_subtokens_per_token := [];
                                      token_types := [] |} true;
                  formatter := Py.join; return_token_type := false |} in
  full_getitem Doctest.full_prepped_tokens (Slice (Some (-1)) None None)
  = ok {| base := built ["the"; "re</t>"]%string
                    {| n_subtokens_per_token := [2];
                       token_types := [Doctest.TypeA] |} true;
          formatter := Py.join; return_token_type := false |}
  /\ full_getitem Doctest.full_prepped_tokens (Slice (Some 1) (Some 1) None)
     = ok empty
  /\ full_getitem Doctest.full_prepped_tokens (Slice (Some (-2)) (Some 0) None)
     = ok empty
  /\ full_getitem Doctest.full_prepped_tokens (Slice (Some (-10)) (Some 10) None)
     = ok Doctest.full_prepped_tokens.
Proof.
  apply (full_view_of_two_slices ["hi</t>"; "the"; "re</t>"]%string 1 2
           Doctest.TypeA Doctest.TypeA true Py.join false).
  - lia.
  - lia.
  - reflexivity.
Defined.

Lemma construction_witness :
  __post_init__ ["h"; "i</t>"]%string Doctest.metadata1 false
  = raise (ValueError 2 1)
  /\ (exists t, __post_init__ ["hi"; "the"; "re</t>"]%string Doctest.metadata12 true
                = raise (AssertionError t))
  /\ __post_init__ ["hi</t>"; "the"; "re</t>"]%string Doctest.metadata12 true
     = ok Doctest.prepped_tokens.
Proof.
  assert (H1 : Forall (fun c => 0 <= c) (n_subtokens_per_token Doctest.metadata1))
    by (repeat constructor; lia).
  assert (H12 : Forall (fun c => 0 <= c) (n_subtokens_per_token Doctest.metadata12))
    by (repeat constructor; lia).
  split; [|split].
  - apply (construction_validation ["h"; "i</t>"]%string Doctest.metadata1 false H1).
    discriminate.
  - apply (construction_validation ["hi"; "the"; "re</t>"]%string
             Doctest.metadata12 true H12).
    split; [reflexivity|]. split; [reflexivity|].
    left. reflexivity.
  - apply (construction_validation ["hi</t>"; "the"; "re</t>"]%string
             Doctest.metadata12 true H12).
    + reflexivity.
    + intros _. repeat constructor; discriminate.
Defined.

Lemma assign_full_token_witness :
  exists elm view',
    full_getitem
      {| base := built ["hi</t>"; "there</t>"]%string Doctest.metadata11 true;
         formatter := Py.join; return_token_type := false |} (Int 0) = ok elm
    /\ tokens (base elm) = ["hi</t>"%string]
    /\ full_setitem
         {| base := built ["hi</t>"; "there</t>"]%string Doctest.metadata11 true;
            formatter := Py.join; return_token_type := false |} 1 (VFull elm)
       = (ok tt, view')
    /\ tokens (base view') = ["hi</t>"; "hi</t>"]%string.
Proof.
  apply (assign_full_token "hi</t>" "there</t>" Doctest.TypeA Doctest.TypeA
           true Py.join false).
  reflexivity.
Defined.

Lemma alignment_iterators_witness :
  to_list (sub_get_iterator Doctest.prepped_tokens [1; 2] true) 4
  = Finished [1; 2; 2]
  /\ exists it,
       full_get_iterator Doctest.full_prepped_tokens [1; 2; 3] false (fun x => x)
       = inr it
       /\ to_list it 3 = Finished [[1]; [2; 3]].
Proof.
  apply (alignment_iterators Doctest.prepped_tokens Doctest.full_prepped_tokens
           1 2 3 0%nat); reflexivity.
Defined.

Lemma unit_step_is_rejected :
  full_getitem Doctest.full_prepped_tokens (Slice (Some 0) (Some 2) (Some 1))
  = raise unsupported_step
  /\ sub_getitem (Formatted:=string) Doctest.prepped_tokens
       (Slice (Some 0) (Some 3) (Some 1))
     = raise unsupported_step
  /\ full_getitem Doctest.full_prepped_tokens (Slice (Some 0) (Some 2) None)
     = ok Doctest.full_prepped_tokens.
Proof. repeat split. Qed.

Lemma slice_without_step_witness :
  exists fv',
    full_getitem Doctest.full_prepped_tokens (Slice (Some 0) (Some 2) None) = ok fv'
    /\ valid (base fv').
Proof.
  apply (slice_with_step_is_rejected Doctest.prepped_tokens
           Doctest.full_prepped_tokens (Some 0) (Some 2)).
  - reflexivity.
  - repeat constructor; lia.
Defined.

(** * Further properties of the module *)

(** ** Draining, step by step *)

Lemma prepend_app {X} (l1 l2 : list X) (d : drained X) :
  prepend (l1 ++ l2) d = prepend l1 (prepend l2 d).
Proof. unfold prepend. apply fold_right_app. Qed.

Lemma prepend_finished {X} (l l' : list X) :
  prepend l (Finished l') = Finished (l ++ l').
Proof. induction l as [|x l IH]; simpl; [reflexivity|]. rewrite IH. reflexivity. Qed.

Lemma prepend_finished_nil {X} (l : list X) : prepend l (Finished []) = Finished l.
Proof. rewrite prepend_finished, app_nil_r. reflexivity. Qed.

Lemma prepend_raised {X} (l l' : list X) (e : exn) :
  prepend l (Raised l' e) = Raised (l ++ l') e.
Proof. induction l as [|x l IH]; simpl; [reflexivity|]. rewrite IH. reflexivity. Qed.

Lemma drain_list {X} (l : list X) (fuel : nat) :
  drain list_next (S (length l) + fuel) l = Finished l.
Proof.
  induction l as [|x l IH]; [reflexivity|].
  change (cons_drained x (drain list_next (S (length l) + fuel) l) = Finished (x :: l)).
  rewrite IH. reflexivity.
Qed.

Section Iterating.

Context {TokenType : Type} {X Y : Type}.

Implicit Types (md : PreppedTokenMetadata TokenType).

(** One element of [over], from the moment the cursor reaches it. *)
Lemma sub_over_full_element (over : list X) md (opre osuf : list X) (x : X)
    (cpre csuf : list Z) (c : Z) (r : nat) (j : Z) (fuel : nat) :
  over = opre ++ x :: osuf ->
  n_subtokens_per_token md = cpre ++ c :: csuf ->
  length opre = length cpre ->
  0 <= j -> Z.of_nat r = Z.max 1 c - j -> (0 < r)%nat ->
  drain (sub_over_full_next over md) (r + fuel)
    {| current_full_word := Py.len opre; current_index := j |}
  = prepend (repeat x r)
      (drain (sub_over_full_next over md) fuel
         {| current_full_word := Py.len opre + 1; current_index := 0 |}).
Proof.
  intros Ho Hc Hl. subst over. revert j.
  induction r as [|r IH]; intros j Hj Hr Hpos; [lia|].
  change (S r + fuel)%nat with (S (r + fuel)).
  cbn [drain]. unfold sub_over_full_next at 1.
  cbn [current_full_word current_index].
  assert (Hlt : (Py.len opre >=? Py.len (opre ++ x :: osuf)) = false).
  { unfold Py.len. rewrite length_app. simpl.
    destruct (Z.geb_spec (Z.of_nat (length opre))
                (Z.of_nat (length opre + S (length osuf)))); [lia|reflexivity]. }
  rewrite Hlt, index_app_middle, Hc.
  replace (Py.index (cpre ++ c :: csuf) (Py.len opre)) with (ok c)
    by (rewrite <- (index_app_middle cpre csuf c); unfold Py.len;
        rewrite Hl; reflexivity).
  unfold ok. cbv beta iota zeta.
  destruct r as [|r].
  - destruct (Z.geb_spec (j + 1) c); [|lia]. reflexivity.
  - destruct (Z.geb_spec (j + 1) c); [lia|].
    rewrite (IH (j + 1)) by lia. reflexivity.
Qed.

(** The broadcast iterator over a run of elements that have counts. *)
Lemma sub_over_full_run (over : list X) md (omid opre orest : list X)
    (cpre cmid crest : list Z) (fuel : nat) :
  over = opre ++ omid ++ orest ->
  n_subtokens_per_token md = cpre ++ cmid ++ crest ->
  length opre = length cpre ->
  length omid = length cmid ->
  drain (sub_over_full_next over md) (length (broadcast omid cmid) + fuel)
    {| current_full_word := Py.len opre; current_index := 0 |}
  = prepend (broadcast omid cmid)
      (drain (sub_over_full_next over md) fuel
         {| current_full_word := Py.len (opre ++ omid); current_index := 0 |}).
Proof.
  revert opre cpre cmid.
  induction omid as [|x omid IH]; intros opre cpre cmid Ho Hc Hl Hm.
  - rewrite app_nil_r. reflexivity.
  - destruct cmid as [|c cmid]; [discriminate|].
    unfold broadcast. cbn [combine flat_map fst snd]. fold (broadcast omid cmid).
    rewrite length_app, repeat_length, <- Nat.add_assoc.
    rewrite (sub_over_full_element over md opre (omid ++ orest) x cpre
               (cmid ++ crest) c (Z.to_nat (Z.max 1 c)) 0)
      by (assumption || lia).
    specialize (IH (opre ++ [x]) (cpre ++ [c]) cmid).
    rewrite <- !app_assoc in IH. cbn [app] in IH.
    replace (Py.len (opre ++ [x])) with (Py.len opre + 1) in IH
      by (unfold Py.len; rewrite length_app; simpl; lia).
    rewrite IH; [apply eq_sym, prepend_app|assumption|assumption| |].
    + rewrite !length_app. simpl. lia.
    + simpl in Hm. lia.
Qed.

(** The grouping iterator, from any full token on. *)
Lemma full_over_sub_from (over : list X) md (fmt : list X -> Y)
    (csuf cpre : list Z) (fuel : nat) :
  n_subtokens_per_token md = cpre ++ csuf ->
  Forall (fun c => 0 <= c) (cpre ++ csuf) ->
  drain (full_over_sub_next over md fmt) (length csuf + S fuel)
    {| current_full_word := Py.len cpre; current_index := Py.sum cpre |}
  = Finished (map fmt (spec_full_tokens (skipn (Z.to_nat (Py.sum cpre)) over) csuf)).
Proof.
  revert cpre. induction csuf as [|c csuf IH]; intros cpre Hc Hnn.
  - cbn [length Nat.add drain]. unfold full_over_sub_next.
    cbn [current_full_word]. rewrite Hc, app_nil_r.
    destruct (Z.geb_spec (Py.len cpre) (Py.len cpre)); [reflexivity|lia].
  - cbn [length Nat.add drain]. unfold full_over_sub_next at 1.
    cbn [current_full_word current_index]. rewrite Hc.
    assert (Hlt : (Py.len cpre >=? Py.len (cpre ++ c :: csuf)) = false).
    { unfold Py.len. rewrite length_app. simpl.
      destruct (Z.geb_spec (Z.of_nat (length cpre))
                  (Z.of_nat (length cpre + S (length csuf)))); [lia|reflexivity]. }
    rewrite Hlt, index_app_middle. unfold ok. cbv beta iota zeta.
    assert (Hpre : 0 <= Py.sum cpre).
    { apply sum_nonneg. apply Forall_app in Hnn. tauto. }
    assert (H0 : 0 <= c).
    { apply Forall_app in Hnn. destruct Hnn as [_ Hs]. inversion Hs; assumption. }
    rewrite slice_nonneg by assumption.
    specialize (IH (cpre ++ [c])).
    rewrite <- app_assoc in IH. cbn [app] in IH. specialize (IH Hc Hnn).
    replace (Py.len (cpre ++ [c])) with (Py.len cpre + 1) in IH
      by (unfold Py.len; rewrite length_app; simpl; lia).
    rewrite sum_app in IH.
    replace (Py.sum [c]) with c in IH by (unfold Py.sum; simpl; lia).
    rewrite IH. cbn [cons_drained spec_full_tokens map].
    rewrite skipn_skipn.
    replace (Z.to_nat c + Z.to_nat (Py.sum cpre))%nat
      with (Z.to_nat (Py.sum cpre + c)) by lia.
    reflexivity.
Qed.

(** The grouping iterator zipped with a list of types. *)
Lemma full_over_sub_zip_from (over : list X) md (fmt : list X -> Y)
    {T} (csuf cpre : list Z) (tys : list T) (fuel : nat) :
  n_subtokens_per_token md = cpre ++ csuf ->
  Forall (fun c => 0 <= c) (cpre ++ csuf) ->
  drain (zip_next (full_over_sub_next over md fmt) list_next)
    (length csuf + S fuel)
    ({| current_full_word := Py.len cpre; current_index := Py.sum cpre |}, tys)
  = Finished (combine
                (map fmt (spec_full_tokens (skipn (Z.to_nat (Py.sum cpre)) over) csuf))
                tys).
Proof.
  revert cpre tys. induction csuf as [|c csuf IH]; intros cpre tys Hc Hnn.
  - cbn [length Nat.add drain]. unfold zip_next, full_over_sub_next.
    cbn [fst current_full_word]. rewrite Hc, app_nil_r.
    destruct (Z.geb_spec (Py.len cpre) (Py.len cpre)); [reflexivity|lia].
  - cbn [length Nat.add drain]. unfold zip_next at 1, full_over_sub_next at 1.
    cbn [fst snd current_full_word current_index]. rewrite Hc.
    assert (Hlt : (Py.len cpre >=? Py.len (cpre ++ c :: csuf)) = false).
    { unfold Py.len. rewrite length_app. simpl.
      destruct (Z.geb_spec (Z.of_nat (length cpre))
                  (Z.of_nat (length cpre + S (length csuf)))); [lia|reflexivity]. }
    rewrite Hlt, index_app_middle. unfold ok. cbv beta iota zeta.
    destruct tys as [|ty tys]; [reflexivity|].
    cbn [list_next].
    assert (Hpre : 0 <= Py.sum cpre).
    { apply sum_nonneg. apply Forall_app in Hnn. tauto. }
    assert (H0 : 0 <= c).
    { apply Forall_app in Hnn. destruct Hnn as [_ Hs]. inversion Hs; assumption. }
    rewrite slice_nonneg by assumption.
    specialize (IH (cpre ++ [c]) tys).
    rewrite <- app_assoc in IH. cbn [app] in IH. specialize (IH Hc Hnn).
    replace (Py.len (cpre ++ [c])) with (Py.len cpre + 1) in IH
      by (unfold Py.len; rewrite length_app; simpl; lia).
    rewrite sum_app in IH.
    replace (Py.sum [c]) with c in IH by (unfold Py.sum; simpl; lia).
    rewrite IH. cbn [cons_drained spec_full_tokens map combine].
    rewrite skipn_skipn.
    replace (Z.to_nat c + Z.to_nat (Py.sum cpre))%nat
      with (Z.to_nat (Py.sum cpre + c)) by lia.
    reflexivity.
Qed.

Lemma firstn_plus {A} (l : list A) (a b : nat) :
  firstn (a + b) l = firstn a l ++ firstn b (skipn a l).
Proof.
  revert l. induction a as [|a IH]; intros l; [reflexivity|].
  destruct l as [|x l]; [simpl; rewrite firstn_nil; reflexivity|].
  simpl. rewrite IH. reflexivity.
Qed.

Lemma combine_firstn_length {A B} (l : list A) (l' : list B) :
  combine l (firstn (length l) l') = combine l l'.
Proof.
  revert l'. induction l as [|x l IH]; intros l'; [reflexivity|].
  destruct l' as [|y l']; [reflexivity|]. simpl. rewrite IH. reflexivity.
Qed.

Lemma concat_spec_full_tokens (over : list X) (counts : list Z) :
  Forall (fun c => 0 <= c) counts ->
  concat (spec_full_tokens over counts) = firstn (Z.to_nat (Py.sum counts)) over.
Proof.
  revert over. induction counts as [|c counts IH]; intros over Hnn.
  - reflexivity.
  - inversion Hnn as [|? ? Hc Hrest]; subst.
    pose proof (sum_nonneg counts Hrest).
    cbn [spec_full_tokens concat]. rewrite IH by assumption.
    rewrite sum_cons, Z2Nat.inj_add by lia.
    rewrite firstn_plus. reflexivity.
Qed.

(** X1: the grouping iterator yields one value per count, the formatter
    applied to the successive groups of [over]; it never raises, whatever the
    length of [over], and the groups together are the first [sum(counts)]
    elements of [over]. *)
Theorem grouping_iterator_groups_by_counts (over : list X) md (fmt : list X -> Y)
    (fuel : nat) :
  Forall (fun c => 0 <= c) (n_subtokens_per_token md) ->
  to_list (_FullOverSubTokenIterator over md fmt)
    (S (length (n_subtokens_per_token md)) + fuel)
  = Finished (map fmt (spec_full_tokens over (n_subtokens_per_token md)))
  /\ length (spec_full_tokens over (n_subtokens_per_token md))
     = length (n_subtokens_per_token md)
  /\ concat (spec_full_tokens over (n_subtokens_per_token md))
     = firstn (Z.to_nat (Py.sum (n_subtokens_per_token md))) over.
Proof.
  intros Hnn. split; [|split].
  - unfold to_list, _FullOverSubTokenIterator. cbn [it_next it_start].
    replace (S (length (n_subtokens_per_token md)) + fuel)%nat
      with (length (n_subtokens_per_token md) + S fuel)%nat by lia.
    exact (full_over_sub_from over md fmt (n_subtokens_per_token md) [] fuel
             eq_refl Hnn).
  - apply spec_full_tokens_length.
  - apply concat_spec_full_tokens, Hnn.
Qed.

(** X2: when [over] has no more elements than the metadata has counts, the
    broadcast iterator yields each element once per sub-token of its full
    token, and once for a count below one, then stops. *)
Theorem broadcast_iterator_replicates (over : list X) md (fuel : nat) :
  (length over <= length (n_subtokens_per_token md))%nat ->
  to_list (_SubOverFullTokenIterator over md)
    (S (length (broadcast over (n_subtokens_per_token md))) + fuel)
  = Finished (broadcast over (n_subtokens_per_token md)).
Proof.
  intros Hle. unfold to_list, _SubOverFullTokenIterator. cbn [it_next it_start it_cursor].
  set (counts := n_subtokens_per_token md).
  assert (Hb : broadcast over counts = broadcast over (firstn (length over) counts)).
  { unfold broadcast. rewrite combine_firstn_length. reflexivity. }
  rewrite Hb.
  replace (S (length (broadcast over (firstn (length over) counts))) + fuel)%nat
    with (length (broadcast over (firstn (length over) counts)) + S fuel)%nat by lia.
  change cursor0
    with {| current_full_word := Py.len (@nil X); current_index := 0 |}.
  rewrite (sub_over_full_run over md over [] [] [] (firstn (length over) counts)
             (skipn (length over) counts) (S fuel)).
  - cbn [app drain]. unfold sub_over_full_next. cbn [current_full_word].
    destruct (Z.geb_spec (Py.len over) (Py.len over)); [|lia].
    apply prepend_finished_nil.
  - rewrite app_nil_r. reflexivity.
  - cbn [app]. fold counts. rewrite firstn_skipn. reflexivity.
  - reflexivity.
  - rewrite length_firstn. fold counts in Hle. lia.
Qed.

(** X3: when [over] is longer than the metadata, the broadcast iterator
    serves the elements that have a count and then raises [IndexError]
    instead of stopping. *)
Theorem broadcast_iterator_overrun (over : list X) md (fuel : nat) :
  (length (n_subtokens_per_token md) < length over)%nat ->
  let served :=
    broadcast (firstn (length (n_subtokens_per_token md)) over)
      (n_subtokens_per_token md) in
  to_list (_SubOverFullTokenIterator over md) (S (length served) + fuel)
  = Raised served IndexError.
Proof.
  intros Hlt served. subst served.
  unfold to_list, _SubOverFullTokenIterator. cbn [it_next it_start it_cursor].
  set (counts := n_subtokens_per_token md) in *.
  replace (S (length (broadcast (firstn (length counts) over) counts)) + fuel)%nat
    with (length (broadcast (firstn (length counts) over) counts) + S fuel)%nat
    by lia.
  change cursor0
    with {| current_full_word := Py.len (@nil X); current_index := 0 |}.
  rewrite (sub_over_full_run over md (firstn (length counts) over) []
             (skipn (length counts) over) [] counts [] (S fuel)).
  - cbn [app drain]. unfold sub_over_full_next.
    cbn [current_full_word current_index].
    assert (Hl : Py.len (firstn (length counts) over) = Py.len counts).
    { unfold Py.len. rewrite length_firstn. lia. }
    rewrite Hl.
    destruct (Z.geb_spec (Py.len counts) (Py.len over));
      [unfold Py.len in *; lia|].
    assert (Ho : exists x, Py.index over (Py.len counts) = inr x).
    { unfold Py.index, Py.len.
      rewrite !(proj2 (Z.ltb_ge (Z.of_nat (length counts)) 0)) by lia.
      rewrite Nat2Z.id.
      destruct (nth_error over (length counts)) eqn:E; [eauto|].
      apply nth_error_None in E. lia. }
    destruct Ho as [x ->].
    assert (Hc : Py.index counts (Py.len counts) = inl IndexError).
    { unfold Py.index, Py.len. fold counts.
      rewrite !(proj2 (Z.ltb_ge (Z.of_nat (length counts)) 0)) by lia.
      rewrite Nat2Z.id.
      rewrite (proj2 (nth_error_None counts (length counts))) by lia.
      reflexivity. }
    fold counts. rewrite Hc. rewrite prepend_raised, app_nil_r. reflexivity.
  - cbn [app]. rewrite firstn_skipn. reflexivity.
  - fold counts. rewrite app_nil_r. reflexivity.
  - reflexivity.
  - rewrite length_firstn. lia.
Qed.

Lemma broadcast_cons (x : X) (over : list X) (c : Z) (counts : list Z) :
  broadcast (x :: over) (c :: counts)
  = repeat x (Z.to_nat (Z.max 1 c)) ++ broadcast over counts.
Proof. reflexivity. Qed.

Lemma length_broadcast (over : list X) (counts : list Z) :
  Forall (fun c => 0 < c) counts ->
  length over = length counts ->
  Z.of_nat (length (broadcast over counts)) = Py.sum counts.
Proof.
  revert counts. induction over as [|x over IH]; intros counts Hpos Hl.
  - destruct counts; [reflexivity|discriminate].
  - destruct counts as [|c counts]; [discriminate|].
    inversion Hpos as [|? ? Hc Hrest]; subst.
    rewrite broadcast_cons, length_app, repeat_length, sum_cons.
    rewrite Nat2Z.inj_add, IH by (assumption || (simpl in Hl; lia)). lia.
Qed.

(** X4: on a valid sequence with positive counts, broadcasting one element
    per full token yields exactly one value per sub-token; with
    [over_full_tokens] unset the iterator is [over] itself. *)
Theorem broadcast_matches_sub_tokens (seq : PreppedTokenSequence TokenType)
    (over : list X) (fuel : nat) :
  valid seq ->
  Forall (fun c => 0 < c) (n_subtokens_per_token (metadata seq)) ->
  length over = length (n_subtokens_per_token (metadata seq)) ->
  to_list (sub_get_iterator seq over true) (S (length (tokens seq)) + fuel)
  = Finished (broadcast over (n_subtokens_per_token (metadata seq)))
  /\ length (broadcast over (n_subtokens_per_token (metadata seq)))
     = length (tokens seq)
  /\ to_list (sub_get_iterator seq over false) (S (length over) + fuel)
     = Finished over.
Proof.
  intros Hv Hpos Hl.
  assert (Hlen : length (broadcast over (n_subtokens_per_token (metadata seq)))
                 = length (tokens seq)).
  { apply post_init_inv in Hv as (Hlen & _ & _).
    pose proof (length_broadcast over _ Hpos Hl) as Hb.
    unfold Py.len in Hlen. lia. }
  split; [|split].
  - rewrite <- Hlen. unfold sub_get_iterator, to_list, _SubOverFullTokenIterator.
    cbn [it_next it_start it_cursor].
    set (counts := n_subtokens_per_token (metadata seq)) in *.
    replace (S (length (broadcast over counts)) + fuel)%nat
      with (length (broadcast over counts) + S fuel)%nat by lia.
    change cursor0
      with {| current_full_word := Py.len (@nil X); current_index := 0 |}.
    rewrite (sub_over_full_run over (metadata seq) over [] [] [] counts []
               (S fuel)).
    + cbn [app drain]. unfold sub_over_full_next. cbn [current_full_word].
      destruct (Z.geb_spec (Py.len over) (Py.len over)); [|lia].
      apply prepend_finished_nil.
    + rewrite app_nil_r. reflexivity.
    + fold counts. rewrite app_nil_r. reflexivity.
    + reflexivity.
    + exact Hl.
  - exact Hlen.
  - apply drain_list.
Qed.

Lemma spec_full_tokens_broadcast (over : list X) (counts : list Z) :
  Forall (fun c => 0 < c) counts ->
  length over = length counts ->
  spec_full_tokens (broadcast over counts) counts
  = map (fun p => repeat (fst p) (Z.to_nat (snd p))) (combine over counts).
Proof.
  revert counts. induction over as [|x over IH]; intros counts Hpos Hl.
  - destruct counts; [reflexivity|discriminate].
  - destruct counts as [|c counts]; [discriminate|].
    inversion Hpos as [|? ? Hc Hrest]; subst.
    rewrite broadcast_cons. rewrite Z.max_r by lia.
    cbn [spec_full_tokens combine map fst snd].
    rewrite firstn_app, repeat_length, Nat.sub_diag, firstn_O, app_nil_r.
    rewrite firstn_all2 by (rewrite repeat_length; lia).
    rewrite skipn_app, repeat_length, Nat.sub_diag, skipn_O.
    rewrite skipn_all2 by (rewrite repeat_length; lia).
    cbn [app]. rewrite IH by (assumption || (simpl in Hl; lia)). reflexivity.
Qed.

(** X5: with positive counts, grouping what the broadcast iterator yields by
    the same metadata gives, for each element of [over], the group of its
    copies, one group per full token. *)
Theorem grouping_inverts_broadcast (over : list X) md (fmt : list X -> Y)
    (fuel : nat) :
  Forall (fun c => 0 < c) (n_subtokens_per_token md) ->
  length over = length (n_subtokens_per_token md) ->
  to_list (_FullOverSubTokenIterator (broadcast over (n_subtokens_per_token md))
             md fmt)
    (S (length over) + fuel)
  = Finished (map (fun p => fmt (repeat (fst p) (Z.to_nat (snd p))))
                (combine over (n_subtokens_per_token md))).
Proof.
  intros Hpos Hl.
  assert (Hnn : Forall (fun c => 0 <= c) (n_subtokens_per_token md)).
  { eapply Forall_impl; [exact Hpos|]. simpl. intros; lia. }
  unfold to_list, _FullOverSubTokenIterator. cbn [it_next it_start it_cursor].
  rewrite Hl.
  replace (S (length (n_subtokens_per_token md)) + fuel)%nat
    with (length (n_subtokens_per_token md) + S fuel)%nat by lia.
  change cursor0
    with {| current_full_word := Py.len (@nil Z); current_index := Py.sum [] |}.
  rewrite (full_over_sub_from _ md fmt (n_subtokens_per_token md) [] fuel
             eq_refl Hnn).
  change (skipn (Z.to_nat (Py.sum [])) ?l) with l.
  rewrite spec_full_tokens_broadcast by assumption.
  rewrite map_map. reflexivity.
Qed.

End Iterating.

(** ** The two tables of a constructed sequence *)

Lemma index_dict_fold_Some (l : list Z) (m : gmap Z nat) (start : nat)
    (k : Z) (i : nat) :
  fold_left (fun m p => <[snd p := fst p]> m) (Py.enumerate_from start l) m !! k
  = Some i ->
  (m !! k = Some i /\ ~ In k l)
  \/ exists j, i = (start + j)%nat /\ nth_error l j = Some k.
Proof.
  revert m start. induction l as [|a l IH]; intros m start H; simpl in H.
  - left. split; [exact H|intros []].
  - apply IH in H as [[H Hn]|(j & -> & Hj)].
    + destruct (Z.eq_dec a k) as [->|Hne].
      * rewrite lookup_insert_eq in H. injection H as <-.
        right. exists 0%nat. split; [lia|reflexivity].
      * rewrite lookup_insert_ne in H by assumption.
        left. split; [exact H|]. intros [Ha|Hin]; [congruence|contradiction].
    + right. exists (S j). split; [lia|exact Hj].
Qed.

(** A key of the boundary dictionary maps to a position that holds it. *)
Lemma index_dict_Some (l : list Z) (k : Z) (i : nat) :
  index_dict l !! k = Some i -> nth_error l i = Some k.
Proof.
  unfold index_dict, Py.enumerate. intros H.
  apply index_dict_fold_Some in H as [[H _]|(j & -> & Hj)].
  - rewrite lookup_empty in H. discriminate.
  - exact Hj.
Qed.

(** Without repeated entries every position is found again. *)
Lemma index_dict_NoDup (l : list Z) (k : Z) (i : nat) :
  NoDup l -> nth_error l i = Some k -> index_dict l !! k = Some i.
Proof.
  intros Hnd Hi.
  destruct (index_dict l !! k) as [i'|] eqn:E.
  - pose proof (index_dict_Some l k i' E) as Hi'.
    f_equal. apply NoDup_ListNoDup in Hnd.
    rewrite List.NoDup_nth_error in Hnd. symmetry. apply Hnd.
    + apply nth_error_Some. congruence.
    + congruence.
  - apply index_dict_None in E. exfalso. apply E.
    eapply nth_error_In, Hi.
Qed.

Lemma cum_sum_from_increasing (acc : Z) (l : list Z) :
  Forall (fun c => 0 < c) l ->
  Forall (fun x => acc < x) (cum_sum_from acc l) /\ NoDup (cum_sum_from acc l).
Proof.
  intros Hpos. revert acc.
  induction Hpos as [|c l Hc _ IH]; intros acc; simpl.
  - split; constructor.
  - destruct (IH (acc + c)) as [Hgt Hnd]. split.
    + constructor; [lia|]. eapply Forall_impl; [exact Hgt|]. simpl. intros; lia.
    + constructor; [|exact Hnd].
      intros Hin. rewrite Forall_forall in Hgt. apply Hgt in Hin. lia.
Qed.

Lemma full_to_sub_NoDup (counts : list Z) :
  Forall (fun c => 0 < c) counts -> NoDup (0 :: cum_sum counts).
Proof.
  intros Hpos. destruct (cum_sum_from_increasing 0 counts Hpos) as [Hgt Hnd].
  constructor; [|exact Hnd].
  intros Hin. rewrite Forall_forall in Hgt. apply Hgt in Hin. lia.
Qed.

Lemma nth_error_full_to_sub (counts : list Z) (i : nat) (k : Z) :
  nth_error (0 :: cum_sum counts) i = Some k ->
  (i <= length counts)%nat /\ k = Py.sum (firstn i counts).
Proof.
  intros H.
  assert (Hi : (i <= length counts)%nat).
  { assert (Hlt : (i < length (0%Z :: cum_sum counts))%nat)
      by (apply nth_error_Some; congruence).
    simpl in Hlt. unfold cum_sum in Hlt. rewrite cum_sum_from_length in Hlt. lia. }
  split; [exact Hi|].
  pose proof (index_full_to_sub counts i Hi) as Hix.
  unfold Py.index in Hix.
  rewrite !(proj2 (Z.ltb_ge (Z.of_nat i) 0)) in Hix by lia.
  rewrite Nat2Z.id, H in Hix. injection Hix as ->. reflexivity.
Qed.

Section Tables.

Context {TokenType : Type}.

Implicit Types (md : PreppedTokenMetadata TokenType).
Implicit Types (seq : PreppedTokenSequence TokenType).

(** X6: in a constructed sequence every key of [sub_to_full] is an entry of
    [full_to_sub] and is mapped to a position that holds it; offsets that
    are no entry have no key; and when all counts are positive the two
    tables are inverse of each other on every full-token index. *)
Theorem tables_are_inverse (toks : list string) md (weta : bool) seq :
  __post_init__ toks md weta = inr seq ->
  (forall (k : Z) (i : nat),
      _sub_to_full_token_indices seq !! k = Some i ->
      (i <= length (n_subtokens_per_token md))%nat
      /\ Py.index (_full_to_sub_token_indices seq) (Z.of_nat i) = ok k)
  /\ (forall k : Z,
        _sub_to_full_token_indices seq !! k = None
        <-> ~ In k (_full_to_sub_token_indices seq))
  /\ (Forall (fun c => 0 < c) (n_subtokens_per_token md) ->
      forall i : nat,
        (i <= length (n_subtokens_per_token md))%nat ->
        exists k,
          Py.index (_full_to_sub_token_indices seq) (Z.of_nat i) = ok k
          /\ _sub_to_full_token_indices seq !! k = Some i).
Proof.
  intros H. apply post_init_inv in H as (_ & _ & ->).
  cbn [built _sub_to_full_token_indices _full_to_sub_token_indices].
  split; [|split].
  - intros k i Hk. apply index_dict_Some in Hk.
    apply nth_error_full_to_sub in Hk as [Hi ->].
    split; [exact Hi|]. apply index_full_to_sub, Hi.
  - intros k. apply index_dict_None.
  - intros Hpos i Hi. eexists. split; [apply index_full_to_sub, Hi|].
    apply index_dict_NoDup; [apply full_to_sub_NoDup, Hpos|].
    pose proof (index_full_to_sub (n_subtokens_per_token md) i Hi) as Hix.
    unfold Py.index in Hix.
    rewrite !(proj2 (Z.ltb_ge (Z.of_nat i) 0)) in Hix by lia.
    rewrite Nat2Z.id in Hix.
    destruct (nth_error _ i); [injection Hix as ->; reflexivity|discriminate].
Qed.

End Tables.

(** ** Slices of a sub-token view *)

Section SubSlices.

Context {TokenType Formatted : Type}.

Implicit Types (md : PreppedTokenMetadata TokenType).
Implicit Types (seq : PreppedTokenSequence TokenType).

(** The full tokens of a run of a sequence are a run of its full tokens. *)
Lemma spec_full_tokens_between (toks : list string) md (lo hi : nat) :
  Forall (fun c => 0 <= c) (n_subtokens_per_token md) ->
  spec_full_tokens (tokens_between toks md lo hi)
    (firstn (hi - lo) (skipn lo (n_subtokens_per_token md)))
  = firstn (hi - lo) (skipn lo (spec_full_tokens toks (n_subtokens_per_token md))).
Proof.
  intros Hnn.
  destruct (Nat.le_gt_cases hi lo) as [Hle|Hgt].
  - replace (hi - lo)%nat with 0%nat by lia. reflexivity.
  - unfold tokens_between.
    rewrite spec_full_tokens_trunc.
    + rewrite <- spec_full_tokens_firstn. unfold offset at 1.
      rewrite <- spec_full_tokens_skipn by assumption. reflexivity.
    + apply Forall_take, Forall_drop, Hnn.
    + rewrite sum_firstn_skipn.
      replace (lo + (hi - lo))%nat with hi by lia.
      fold (offset md hi). fold (offset md lo).
      pose proof (sum_firstn_mono _ lo hi Hnn ltac:(lia)) as Hm.
      fold (offset md lo) in Hm. fold (offset md hi) in Hm. lia.
Qed.

(** A bound that is aligned translates, and the translation points at the
    full token that starts at the bound. *)
Lemma sub_to_full_aligned (toks : list string) md (weta : bool) (b : option Z) :
  Py.len toks = Py.sum (n_subtokens_per_token md) ->
  ~ misaligned (built toks md weta) b ->
  exists fb,
    _sub_to_full_index (built toks md weta) (sub_len (built toks md weta)) b
    = ok fb
    /\ Py.adjust (Py.len toks) 0 b
       = offset md (slice_lo (length (n_subtokens_per_token md)) fb)
    /\ Py.adjust (Py.len toks) (Py.len toks) b
       = offset md (slice_hi (length (n_subtokens_per_token md)) fb).
Proof.
  intros Hlen Hal. rewrite sub_to_full_index_result.
  set (F := length (n_subtokens_per_token md)).
  destruct b as [i|].
  - cbv zeta. unfold misaligned in Hal.
    cbn [built tokens _sub_to_full_token_indices] in *.
    destruct (index_dict _ !! normalized (length toks) i) as [k|] eqn:Ek;
      [|contradiction].
    pose proof (index_dict_Some _ _ _ Ek) as Hk.
    apply nth_error_full_to_sub in Hk as [HkF Hk]. fold F in HkF.
    fold (offset md k) in Hk.
    eexists. split; [reflexivity|].
    unfold Py.len in *. unfold normalized in Hk, Ek.
    unfold slice_lo, slice_hi, Py.adjust.
    destruct (Z.ltb_spec i (- Z.of_nat (length toks))) as [H1|H1].
    + assert (k = F) as ->.
      { destruct (full_to_sub_last (n_subtokens_per_token md)) as (pre & Hp & Hl).
        rewrite Hp, <- Hlen, index_dict_snoc in Ek. injection Ek as <-.
        exact Hl. }
      destruct (Z.ltb_spec (- Z.of_nat F - 1) 0); [|lia].
      destruct (Z.ltb_spec i 0); [|lia].
      replace (Z.to_nat (Z.max (- Z.of_nat F - 1 + Z.of_nat F) 0)) with 0%nat by lia.
      rewrite offset_0. lia.
    + destruct (Z.ltb_spec (Z.of_nat k) 0); [lia|].
      replace (Z.to_nat (Z.min (Z.of_nat k) (Z.of_nat F))) with k by lia.
      destruct (Z.ltb_spec i 0) as [H2|H2]; [lia|].
      rewrite Z.gtb_ltb in Hk.
      destruct (Z.ltb_spec (Z.of_nat (length toks)) i); lia.
  - exists None. split; [reflexivity|].
    cbn [Py.adjust]. unfold slice_lo, slice_hi. cbn [Py.adjust].
    rewrite Nat2Z.id. fold F. unfold F. rewrite offset_all, offset_0.
    split; [reflexivity|exact Hlen].
Qed.

(** X7: a slice of a valid sub-token view whose two bounds are aligned is a
    valid sub-token view: it holds [tokens[start:stop]], keeps the flag, and
    its full tokens are a run of the full tokens of the view. *)
Theorem aligned_sub_slice seq (start stop : option Z) :
  valid seq ->
  Forall (fun c => 0 <= c) (n_subtokens_per_token (metadata seq)) ->
  ~ misaligned seq start -> ~ misaligned seq stop ->
  exists s' lo hi,
    sub_getitem (Formatted:=Formatted) seq (Slice start stop None) = ok (VSub s')
    /\ valid s'
    /\ tokens s' = Py.slice (tokens seq) start stop
    /\ word_end_token_added s' = word_end_token_added seq
    /\ spec_full_tokens (tokens s') (n_subtokens_per_token (metadata s'))
       = firstn (hi - lo)
           (skipn lo (spec_full_tokens (tokens seq)
                        (n_subtokens_per_token (metadata seq)))).
Proof.
  intros Hv Hnn Hs He.
  rewrite (valid_is_built seq Hv) in Hs, He |- *.
  set (toks := tokens seq) in *. set (md := metadata seq) in *.
  set (weta := word_end_token_added seq) in *.
  rewrite (valid_is_built seq Hv) in Hv. fold toks md weta in Hv.
  cbn [built tokens metadata word_end_token_added].
  pose proof (proj1 (proj1 (valid_built _ _ _) Hv)) as Hlen.
  destruct (sub_to_full_aligned toks md weta start Hlen Hs) as (fs & Es & Hlo & _).
  destruct (sub_to_full_aligned toks md weta stop Hlen He) as (fe & Ee & _ & Hhi).
  set (F := length (n_subtokens_per_token md)) in *.
  assert (Htoks : Py.slice toks start stop
                  = tokens_between toks md (slice_lo F fs) (slice_hi F fe)).
  { unfold Py.slice. cbv zeta. rewrite Hlo, Hhi. reflexivity. }
  pose proof (tokens_between_consistent toks md weta fs fe Hnn Hv) as Hv'.
  cbv zeta in Hv'. fold F in Hv'.
  exists (built (Py.slice toks start stop) (slice_metadata md fs fe) weta),
    (slice_lo F fs), (slice_hi F fe).
  split; [|split; [|split; [|split]]].
  - unfold sub_getitem. cbn [as_slice bind ok fst snd].
    rewrite Es, Ee. cbn [bind ok built tokens metadata word_end_token_added].
    unfold PreppedSubTokenSequence_new.
    rewrite Htoks. unfold valid in Hv'.
    cbn [built tokens metadata word_end_token_added] in Hv'.
    rewrite Hv'. reflexivity.
  - rewrite Htoks. exact Hv'.
  - reflexivity.
  - reflexivity.
  - cbn [built tokens metadata slice_metadata n_subtokens_per_token].
    rewrite Htoks, slice_between. fold F.
    apply spec_full_tokens_between, Hnn.
Qed.

(** X8: slicing a valid sub-token view never raises: the result is a valid
    sub-token view when both bounds are aligned and a surrogate otherwise,
    and either way it carries exactly [tokens[start:stop]]; the same holds
    for an integer index [i], read as the slice [i:i+1]. *)
Theorem sub_slice_never_raises seq (start stop : option Z) :
  valid seq ->
  Forall (fun c => 0 <= c) (n_subtokens_per_token (metadata seq)) ->
  (exists v,
      sub_getitem (Formatted:=Formatted) seq (Slice start stop None) = ok v
      /\ raw_tokens v = Py.slice (tokens seq) start stop
      /\ match v with
         | VSub s' => valid s' /\ ~ misaligned seq start /\ ~ misaligned seq stop
         | VSurrogate _ => misaligned seq start \/ misaligned seq stop
         | _ => False
         end)
  /\ forall i : Z,
       exists v,
         sub_getitem (Formatted:=Formatted) seq (Int i) = ok v
         /\ raw_tokens v = Py.slice (tokens seq) (Some i) (Some (i + 1)).
Proof.
  intros Hv Hnn.
  assert (Hmain : forall start stop,
    exists v,
      sub_getitem (Formatted:=Formatted) seq (Slice start stop None) = ok v
      /\ raw_tokens v = Py.slice (tokens seq) start stop
      /\ match v with
         | VSub s' => valid s' /\ ~ misaligned seq start /\ ~ misaligned seq stop
         | VSurrogate _ => misaligned seq start \/ misaligned seq stop
         | _ => False
         end).
  { clear start stop. intros start stop.
    assert (Hdec : forall b, misaligned seq b \/ ~ misaligned seq b).
    { intros [i|]; [|right; exact id]. unfold misaligned.
      destruct (_ !! _); [right; discriminate|left; reflexivity]. }
    destruct (Hdec start) as [Hs|Hs]; [|destruct (Hdec stop) as [He|He]].
    - exists (VSurrogate {| surrogate_tokens := Py.slice (tokens seq) start stop |}).
      split; [|split; [reflexivity|left; exact Hs]].
      unfold sub_getitem. cbn [as_slice bind ok fst snd].
      apply sub_to_full_index_misaligned in Hs as [k ->]. reflexivity.
    - exists (VSurrogate {| surrogate_tokens := Py.slice (tokens seq) start stop |}).
      split; [|split; [reflexivity|right; exact He]].
      unfold sub_getitem. cbn [as_slice bind ok fst snd].
      destruct (_sub_to_full_index seq (sub_len seq) start) as [e|fs] eqn:Es.
      + apply sub_to_full_index_error in Es as [k ->]. reflexivity.
      + apply sub_to_full_index_misaligned in He as [k ->]. reflexivity.
    - assert (Hal : exists s',
                sub_getitem (Formatted:=Formatted) seq (Slice start stop None)
                = ok (VSub s')
                /\ valid s' /\ tokens s' = Py.slice (tokens seq) start stop).
      { rewrite (valid_is_built seq Hv) in Hs, He |- *.
        set (toks := tokens seq) in *. set (md := metadata seq) in *.
        set (weta := word_end_token_added seq) in *.
        pose proof Hv as Hv0. rewrite (valid_is_built seq Hv) in Hv0.
        fold toks md weta in Hv0.
        cbn [built tokens metadata word_end_token_added].
        pose proof (proj1 (proj1 (valid_built _ _ _) Hv0)) as Hlen.
        destruct (sub_to_full_aligned toks md weta start Hlen Hs)
          as (fs & Es & Hlo & _).
        destruct (sub_to_full_aligned toks md weta stop Hlen He)
          as (fe & Ee & _ & Hhi).
        set (F := length (n_subtokens_per_token md)) in *.
        assert (Htoks : Py.slice toks start stop
                        = tokens_between toks md (slice_lo F fs) (slice_hi F fe)).
        { unfold Py.slice. cbv zeta. rewrite Hlo, Hhi. reflexivity. }
        pose proof (tokens_between_consistent toks md weta fs fe Hnn Hv0) as Hv'.
        cbv zeta in Hv'. fold F in Hv'.
        exists (built (Py.slice toks start stop) (slice_metadata md fs fe) weta).
        split; [|split; [rewrite Htoks; exact Hv'|reflexivity]].
        unfold sub_getitem. cbn [as_slice bind ok fst snd].
        rewrite Es, Ee. cbn [bind ok built tokens metadata word_end_token_added].
        unfold PreppedSubTokenSequence_new.
        rewrite Htoks. unfold valid in Hv'.
        cbn [built tokens metadata word_end_token_added] in Hv'.
        rewrite Hv'. reflexivity. }
      destruct Hal as (s' & Hget & Hv' & Htok).
      exists (VSub s'). split; [exact Hget|]. split; [exact Htok|]. tauto. }
  split; [apply Hmain|].
  intros i. destruct (Hmain (Some i) (Some (i + 1))) as (v & Hget & Hraw & _).
  exists v. split; [exact Hget|exact Hraw].
Qed.

End SubSlices.

(** ** Slices, indices and assignment on a full-token view *)

Lemma slice_map {A B} (f : A -> B) (l : list A) (start stop : option Z) :
  Py.slice (map f l) start stop = map f (Py.slice l start stop).
Proof.
  unfold Py.slice, Py.len. cbv zeta.
  rewrite length_map, skipn_map, firstn_map. reflexivity.
Qed.

Lemma slice_split {A} (l : list A) (k : Z) :
  Py.slice l None (Some k) ++ Py.slice l (Some k) None = l.
Proof.
  rewrite !slice_between.
  change (slice_lo (length l) None) with 0%nat.
  assert (Hhi : slice_hi (length l) None = length l)
    by (unfold slice_hi; cbn [Py.adjust]; apply Nat2Z.id).
  rewrite Hhi.
  change (slice_hi (length l) (Some k)) with (slice_lo (length l) (Some k)).
  set (m := slice_lo (length l) (Some k)).
  rewrite Nat.sub_0_r. change (skipn 0 l) with l.
  rewrite (firstn_all2 (n:=length l - m)) by (rewrite length_skipn; lia).
  apply firstn_skipn.
Qed.

Lemma firstn_one_skipn {A} (l : list A) (i : nat) (d : A) :
  (i < length l)%nat -> firstn 1 (skipn i l) = [nth i l d].
Proof.
  revert i. induction l as [|x l IH]; intros i Hi; simpl in Hi; [lia|].
  destruct i as [|i]; [reflexivity|]. simpl. apply IH. lia.
Qed.

(** [l[i:i+1]]: one element for an index within range other than [-1],
    nothing for [-1] and for an index out of range. *)
Lemma slice_one {A} (l : list A) (i : Z) (d : A) :
  Py.slice l (Some i) (Some (i + 1))
  = if (0 <=? i) && (i <? Py.len l) then [nth (Z.to_nat i) l d]
    else if (- Py.len l <=? i) && (i <? -1) then [nth (Z.to_nat (Py.len l + i)) l d]
    else [].
Proof.
  rewrite slice_between. unfold slice_lo, slice_hi, Py.adjust, Py.len.
  set (n := length l).
  destruct (Z.leb_spec 0 i) as [H0|H0]; cbn [andb].
  - destruct (Z.ltb_spec i (Z.of_nat n)) as [H1|H1].
    + destruct (Z.ltb_spec i 0); [lia|]. destruct (Z.ltb_spec (i + 1) 0); [lia|].
      replace (Z.to_nat (Z.min (i + 1) (Z.of_nat n)) - Z.to_nat (Z.min i (Z.of_nat n)))%nat
        with 1%nat by lia.
      replace (Z.to_nat (Z.min i (Z.of_nat n))) with (Z.to_nat i) by lia.
      apply firstn_one_skipn. fold n. lia.
    + destruct (Z.leb_spec (- Z.of_nat n) i); [|lia]. cbn [andb].
      destruct (Z.ltb_spec i (-1)); [lia|].
      destruct (Z.ltb_spec i 0); [lia|]. destruct (Z.ltb_spec (i + 1) 0); [lia|].
      replace (Z.to_nat (Z.min (i + 1) (Z.of_nat n)) - Z.to_nat (Z.min i (Z.of_nat n)))%nat
        with 0%nat by lia.
      reflexivity.
  - destruct (Z.ltb_spec i 0); [|lia].
    destruct (Z.leb_spec (- Z.of_nat n) i) as [H1|H1]; cbn [andb].
    + destruct (Z.ltb_spec i (-1)) as [H2|H2].
      * destruct (Z.ltb_spec (i + 1) 0); [|lia].
        replace (Z.to_nat (Z.max (i + 1 + Z.of_nat n) 0)
                 - Z.to_nat (Z.max (i + Z.of_nat n) 0))%nat with 1%nat by lia.
        replace (Z.to_nat (Z.max (i + Z.of_nat n) 0))
          with (Z.to_nat (Z.of_nat n + i)) by lia.
        apply firstn_one_skipn. fold n. lia.
      * destruct (Z.ltb_spec (i + 1) 0); [lia|].
        replace (Z.to_nat (Z.min (i + 1) (Z.of_nat n))
                 - Z.to_nat (Z.max (i + Z.of_nat n) 0))%nat with 0%nat by lia.
        reflexivity.
    + destruct (Z.ltb_spec (i + 1) 0).
      * replace (Z.to_nat (Z.max (i + 1 + Z.of_nat n) 0)
                 - Z.to_nat (Z.max (i + Z.of_nat n) 0))%nat with 0%nat by lia.
        reflexivity.
      * replace (Z.to_nat (Z.min (i + 1) (Z.of_nat n))
                 - Z.to_nat (Z.max (i + Z.of_nat n) 0))%nat with 0%nat by lia.
        reflexivity.
Qed.

Lemma spec_full_tokens_app {A} (t1 t2 : list A) (c1 c2 : list Z) :
  Forall (fun c => 0 <= c) c1 ->
  Py.len t1 = Py.sum c1 ->
  spec_full_tokens (t1 ++ t2) (c1 ++ c2)
  = spec_full_tokens t1 c1 ++ spec_full_tokens t2 c2.
Proof.
  revert t1. induction c1 as [|c c1 IH]; intros t1 Hnn Hlen.
  - destruct t1; [reflexivity|]. unfold Py.len, Py.sum in Hlen. simpl in Hlen. lia.
  - inversion Hnn as [|? ? Hc Hrest]; subst.
    rewrite sum_cons in Hlen. pose proof (sum_nonneg c1 Hrest).
    unfold Py.len in Hlen.
    cbn [app spec_full_tokens].
    rewrite firstn_app, skipn_app.
    replace (Z.to_nat c - length t1)%nat with 0%nat by lia.
    rewrite firstn_O, skipn_O, app_nil_r.
    rewrite IH; [reflexivity|assumption|].
    unfold Py.len. rewrite length_skipn. lia.
Qed.

Lemma slice_prefix {A} (l : list A) (k : nat) :
  (k <= length l)%nat -> Py.slice l None (Some (Z.of_nat k)) = firstn k l.
Proof.
  intros Hk. rewrite slice_between. unfold slice_lo, slice_hi, Py.adjust.
  destruct (Z.ltb_spec (Z.of_nat k) 0); [lia|].
  replace (Z.to_nat (Z.min (Z.of_nat k) (Z.of_nat (length l))) - Z.to_nat 0)%nat
    with k by lia.
  reflexivity.
Qed.

Lemma slice_suffix {A} (l : list A) (k : nat) :
  (k <= length l)%nat -> Py.slice l (Some (Z.of_nat k)) None = skipn k l.
Proof.
  intros Hk. rewrite slice_between. unfold slice_lo, slice_hi, Py.adjust.
  destruct (Z.ltb_spec (Z.of_nat k) 0); [lia|].
  replace (Z.to_nat (Z.min (Z.of_nat k) (Z.of_nat (length l)))) with k by lia.
  rewrite Nat2Z.id. apply firstn_all2. rewrite length_skipn. lia.
Qed.

Section FullSlices.

Context {TokenType Formatted : Type}.

Implicit Types (md : PreppedTokenMetadata TokenType).
Implicit Types (seq : PreppedTokenSequence TokenType).
Implicit Types (fv : PreppedFullTokenSequence TokenType Formatted).

(** What a slice of a valid full-token view is made of. *)
Lemma full_slice_parts (toks : list string) md (weta : bool)
    (fmt : list string -> Formatted) (rtt : bool) (start stop : option Z) :
  Forall (fun c => 0 <= c) (n_subtokens_per_token md) ->
  valid (built toks md weta) ->
  exists toks',
    full_getitem {| base := built toks md weta; formatter := fmt;
                    return_token_type := rtt |} (Slice start stop None)
    = ok {| base := built toks' (slice_metadata md start stop) weta;
            formatter := fmt; return_token_type := rtt |}
    /\ valid (built toks' (slice_metadata md start stop) weta)
    /\ spec_full_tokens toks' (Py.slice (n_subtokens_per_token md) start stop)
       = Py.slice (spec_full_tokens toks (n_subtokens_per_token md)) start stop
    /\ toks' = concat (Py.slice (spec_full_tokens toks (n_subtokens_per_token md))
                         start stop).
Proof.
  intros Hnn Hv.
  set (F := length (n_subtokens_per_token md)).
  exists (tokens_between toks md (slice_lo F start) (slice_hi F stop)).
  pose proof (tokens_between_consistent toks md weta start stop Hnn Hv) as Hv'.
  cbv zeta in Hv'. fold F in Hv'.
  assert (Hchunks :
    spec_full_tokens (tokens_between toks md (slice_lo F start) (slice_hi F stop))
      (Py.slice (n_subtokens_per_token md) start stop)
    = Py.slice (spec_full_tokens toks (n_subtokens_per_token md)) start stop).
  { rewrite !slice_between, spec_full_tokens_length. fold F.
    apply spec_full_tokens_between, Hnn. }
  split; [apply (full_getitem_slice toks md weta fmt rtt start stop Hnn Hv)|].
  split; [exact Hv'|]. split; [exact Hchunks|].
  rewrite <- Hchunks.
  rewrite concat_spec_full_tokens
    by (rewrite slice_between; apply Forall_take, Forall_drop, Hnn).
  apply valid_built in Hv' as [Hlen' _].
  cbn [slice_metadata n_subtokens_per_token] in Hlen'.
  rewrite <- Hlen'. unfold Py.len. rewrite Nat2Z.id, firstn_all. reflexivity.
Qed.

Lemma full_iter_built (toks : list string) md (weta : bool)
    (fmt : list string -> Formatted) (rtt : bool) (fuel : nat) :
  Forall (fun c => 0 <= c) (n_subtokens_per_token md) ->
  to_list (full_iter {| base := built toks md weta; formatter := fmt;
                        return_token_type := rtt |})
    (S (length (n_subtokens_per_token md)) + fuel)
  = Finished (map fmt (spec_full_tokens toks (n_subtokens_per_token md))).
Proof.
  intros Hnn. unfold to_list, full_iter, _FullOverSubTokenIterator.
  cbn [it_next it_start it_cursor base built tokens metadata formatter].
  replace (S (length (n_subtokens_per_token md)) + fuel)%nat
    with (length (n_subtokens_per_token md) + S fuel)%nat by lia.
  exact (full_over_sub_from toks md fmt (n_subtokens_per_token md) [] fuel
           eq_refl Hnn).
Qed.

(** X9: a slice of a valid full-token view never raises; it is a valid view
    over the full tokens [start:stop], with counts and types sliced alike
    and the formatter kept, its length is the number of sliced counts, and
    iterating it gives the same slice of what the view iterates to. *)
Theorem full_slice_iterates_to_slice fv (start stop : option Z) (fuel : nat) :
  valid (base fv) ->
  Forall (fun c => 0 <= c) (n_subtokens_per_token (metadata (base fv))) ->
  let counts := n_subtokens_per_token (metadata (base fv)) in
  let full := spec_full_tokens (tokens (base fv)) counts in
  exists fv',
    full_getitem fv (Slice start stop None) = ok fv'
    /\ valid (base fv')
    /\ formatter fv' = formatter fv
    /\ return_token_type fv' = return_token_type fv
    /\ metadata (base fv') = slice_metadata (metadata (base fv)) start stop
    /\ tokens (base fv') = concat (Py.slice full start stop)
    /\ full_len (base fv') = ok (length (Py.slice counts start stop))
    /\ to_list (full_iter fv') (S (length (Py.slice counts start stop)) + fuel)
       = Finished (Py.slice (map (formatter fv) full) start stop).
Proof.
  intros Hv Hnn counts full. subst counts full.
  destruct fv as [b fmt rtt]. cbn [base formatter return_token_type] in *.
  rewrite (valid_is_built b Hv) in Hv |- *.
  set (toks := tokens b) in *. set (md := metadata b) in *.
  set (weta := word_end_token_added b) in *.
  cbn [built tokens metadata] in Hnn |- *.
  destruct (full_slice_parts toks md weta fmt rtt start stop Hnn Hv)
    as (toks' & Hget & Hv' & Hchunks & Htoks).
  eexists. split; [exact Hget|].
  cbn [base formatter return_token_type built tokens metadata].
  split; [exact Hv'|]. do 3 (split; [reflexivity|]).
  split; [exact Htoks|].
  split.
  - apply full_len_built. apply valid_built in Hv'. tauto.
  - change (Py.slice (n_subtokens_per_token md) start stop)
      with (n_subtokens_per_token (slice_metadata md start stop)).
    rewrite (full_iter_built toks' (slice_metadata md start stop) weta fmt rtt fuel)
      by (cbn [slice_metadata n_subtokens_per_token]; rewrite slice_between;
          apply Forall_take, Forall_drop, Hnn).
    cbn [slice_metadata n_subtokens_per_token].
    rewrite Hchunks, slice_map. reflexivity.
Qed.

(** X10: an integer index on a valid full-token view never raises: within
    range, and other than [-1], it gives the valid view over that one full
    token; for [-1] and for an index out of range it gives the empty view. *)
Theorem full_integer_index fv (i : Z) :
  valid (base fv) ->
  Forall (fun c => 0 <= c) (n_subtokens_per_token (metadata (base fv))) ->
  let full := spec_full_tokens (tokens (base fv))
                (n_subtokens_per_token (metadata (base fv))) in
  let n := Py.len (n_subtokens_per_token (metadata (base fv))) in
  exists fv',
    full_getitem fv (Int i) = ok fv'
    /\ valid (base fv')
    /\ spec_full_tokens (tokens (base fv'))
         (n_subtokens_per_token (metadata (base fv')))
       = (if (0 <=? i) && (i <? n) then [nth (Z.to_nat i) full []]
          else if (- n <=? i) && (i <? -1) then [nth (Z.to_nat (n + i)) full []]
          else [])
    /\ tokens (base fv')
       = (if (0 <=? i) && (i <? n) then nth (Z.to_nat i) full []
          else if (- n <=? i) && (i <? -1) then nth (Z.to_nat (n + i)) full []
          else []).
Proof.
  intros Hv Hnn full n. subst full n.
  destruct fv as [b fmt rtt]. cbn [base] in *.
  rewrite (valid_is_built b Hv) in Hv |- *.
  set (toks := tokens b) in *. set (md := metadata b) in *.
  set (weta := word_end_token_added b) in *.
  cbn [built tokens metadata] in Hnn |- *.
  change (full_getitem ?v (Int i))
    with (full_getitem v (Slice (Some i) (Some (i + 1)) None)).
  destruct (full_slice_parts toks md weta fmt rtt (Some i) (Some (i + 1)) Hnn Hv)
    as (toks' & Hget & Hv' & Hchunks & Htoks).
  eexists. split; [exact Hget|].
  cbn [base built tokens metadata slice_metadata n_subtokens_per_token].
  split; [exact Hv'|].
  assert (Hone := slice_one (spec_full_tokens toks (n_subtokens_per_token md)) i []).
  unfold Py.len in Hone |- *. rewrite spec_full_tokens_length in Hone.
  split.
  - rewrite Hchunks. exact Hone.
  - rewrite Htoks, Hone.
    repeat match goal with
           | |- context [if ?c then _ else _] => destruct c
           end; cbn [concat]; rewrite ?app_nil_r; reflexivity.
Qed.

(** X11: cutting a valid full-token view at any index and concatenating the
    two slices gives back its tokens and its metadata, and the view derived
    from the result is the view itself. *)
Theorem full_split_and_concatenate fv (k : Z) :
  valid (base fv) ->
  Forall (fun c => 0 <= c) (n_subtokens_per_token (metadata (base fv))) ->
  exists p q r,
    full_getitem fv (Slice None (Some k) None) = ok p
    /\ full_getitem fv (Slice (Some k) None None) = ok q
    /\ full_add p (VFull q) = ok (VFull r)
    /\ tokens (base r) = tokens (base fv)
    /\ metadata (base r) = metadata (base fv)
    /\ full_tokens_view (base r) (formatter r) (return_token_type r) = ok fv.
Proof.
  intros Hv Hnn.
  destruct fv as [b fmt rtt]. cbn [base] in *.
  rewrite (valid_is_built b Hv) in Hv |- *.
  set (toks := tokens b) in *. set (md := metadata b) in *.
  set (weta := word_end_token_added b) in *.
  cbn [built tokens metadata] in Hnn |- *.
  destruct (full_slice_parts toks md weta fmt rtt None (Some k) Hnn Hv)
    as (tp & Hp & _ & _ & Htp).
  destruct (full_slice_parts toks md weta fmt rtt (Some k) None Hnn Hv)
    as (tq & Hq & _ & _ & Htq).
  assert (Htoks : tp ++ tq = toks).
  { rewrite Htp, Htq, <- concat_app, slice_split.
    rewrite concat_spec_full_tokens by assumption.
    apply valid_built in Hv as [Hlen _]. rewrite <- Hlen.
    unfold Py.len. rewrite Nat2Z.id. apply firstn_all. }
  assert (Hmd : metadata_update_ (slice_metadata md None (Some k))
                  (slice_metadata md (Some k) None) = md).
  { unfold metadata_update_, slice_metadata. cbn [n_subtokens_per_token token_types].
    rewrite !slice_split. destruct md; reflexivity. }
  do 3 eexists.
  split; [exact Hp|]. split; [exact Hq|].
  split; [reflexivity|].
  cbn [base add_sequence update_ tokens metadata built formatter return_token_type
       word_end_token_added].
  rewrite Htoks, Hmd. split; [reflexivity|]. split; [reflexivity|].
  unfold full_tokens_view, PreppedFullTokenSequence_new.
  cbn [add_sequence update_ tokens metadata built word_end_token_added].
  rewrite Htoks, Hmd.
  unfold valid in Hv. cbn [built tokens metadata word_end_token_added] in Hv.
  rewrite Hv. reflexivity.
Qed.

(** X12: assigning a full-token view [v] at [key] in a valid full-token view
    never raises, whatever the length of [v]: the new content is the full
    tokens [[:key]], then those of [v], then the full tokens [[key+1:]], with
    counts and types spliced alike and the formatter kept; for a key within
    range this replaces exactly the full token at [key]. *)
Theorem setitem_splices_full_tokens fv (v : PreppedFullTokenSequence TokenType Formatted)
    (key : Z) (fuel : nat) :
  valid (base fv) ->
  Forall (fun c => 0 <= c) (n_subtokens_per_token (metadata (base fv))) ->
  Py.len (tokens (base v)) = Py.sum (n_subtokens_per_token (metadata (base v))) ->
  Forall (fun c => 0 <= c) (n_subtokens_per_token (metadata (base v))) ->
  let counts := n_subtokens_per_token (metadata (base fv)) in
  let types := token_types (metadata (base fv)) in
  let full := spec_full_tokens (tokens (base fv)) counts in
  let full_v := spec_full_tokens (tokens (base v))
                  (n_subtokens_per_token (metadata (base v))) in
  exists fv',
    full_setitem fv key (VFull v) = (ok tt, fv')
    /\ formatter fv' = formatter fv
    /\ return_token_type fv' = return_token_type fv
    /\ word_end_token_added (base fv') = word_end_token_added (base fv)
    /\ n_subtokens_per_token (metadata (base fv'))
       = Py.slice counts None (Some key)
         ++ n_subtokens_per_token (metadata (base v))
         ++ Py.slice counts (Some (key + 1)) None
    /\ token_types (metadata (base fv'))
       = Py.slice types None (Some key)
         ++ token_types (metadata (base v))
         ++ Py.slice types (Some (key + 1)) None
    /\ spec_full_tokens (tokens (base fv'))
         (n_subtokens_per_token (metadata (base fv')))
       = Py.slice full None (Some key) ++ full_v ++ Py.slice full (Some (key + 1)) None
    /\ to_list (full_iter fv')
         (S (length (n_subtokens_per_token (metadata (base fv')))) + fuel)
       = Finished (map (formatter fv)
                     (Py.slice full None (Some key) ++ full_v
                      ++ Py.slice full (Some (key + 1)) None))
    /\ (0 <= key < Py.len counts ->
        spec_full_tokens (tokens (base fv'))
          (n_subtokens_per_token (metadata (base fv')))
        = firstn (Z.to_nat key) full ++ full_v ++ skipn (S (Z.to_nat key)) full).
Proof.
  intros Hv Hnn Hlenv Hnnv counts types full full_v.
  subst counts types full full_v.
  destruct fv as [b fmt rtt]. cbn [base formatter return_token_type] in *.
  rewrite (valid_is_built b Hv) in Hv |- *.
  set (toks := tokens b) in *. set (md := metadata b) in *.
  set (weta := word_end_token_added b) in *.
  cbn [built tokens metadata word_end_token_added] in Hnn |- *.
  destruct (full_slice_parts toks md weta fmt rtt None (Some key) Hnn Hv)
    as (tp & Hp & Hvp & Hcp & Htp).
  destruct (full_slice_parts toks md weta fmt rtt (Some (key + 1)) None Hnn Hv)
    as (tq & Hq & Hvq & Hcq & Htq).
  apply valid_built in Hvp as [Hlenp _]. apply valid_built in Hvq as [Hlenq _].
  cbn [slice_metadata n_subtokens_per_token] in Hlenp, Hlenq.
  set (cp := Py.slice (n_subtokens_per_token md) None (Some key)) in *.
  set (cq := Py.slice (n_subtokens_per_token md) (Some (key + 1)) None) in *.
  set (cv := n_subtokens_per_token (metadata (base v))) in *.
  assert (Hnnp : Forall (fun c => 0 <= c) cp)
    by (unfold cp; rewrite slice_between; apply Forall_take, Forall_drop, Hnn).
  assert (Hnnq : Forall (fun c => 0 <= c) cq)
    by (unfold cq; rewrite slice_between; apply Forall_take, Forall_drop, Hnn).
  assert (Hchunks :
    spec_full_tokens ((tp ++ tokens (base v)) ++ tq) ((cp ++ cv) ++ cq)
    = Py.slice (spec_full_tokens toks (n_subtokens_per_token md)) None (Some key)
      ++ spec_full_tokens (tokens (base v)) cv
      ++ Py.slice (spec_full_tokens toks (n_subtokens_per_token md))
           (Some (key + 1)) None).
  { rewrite spec_full_tokens_app.
    - rewrite spec_full_tokens_app by assumption.
      rewrite <- (app_nil_r tq), <- (app_nil_r cq) at 1.
      rewrite spec_full_tokens_app by assumption.
      cbn [spec_full_tokens]. rewrite !app_nil_r, Hcp, Hcq, <- app_assoc.
      reflexivity.
    - apply Forall_app. split; assumption.
    - unfold Py.len in *. rewrite length_app, sum_app. lia. }
  eexists. split.
  { unfold full_setitem. rewrite Hp, Hq. cbn [bind ok]. reflexivity. }
  cbn [base formatter return_token_type add_sequence update_ tokens metadata
       built word_end_token_added metadata_update_ slice_metadata
       n_subtokens_per_token token_types].
  fold cp cq cv.
  do 3 (split; [reflexivity|]).
  split; [symmetry; apply app_assoc|].
  split; [symmetry; apply app_assoc|].
  split; [exact Hchunks|].
  split.
  - unfold to_list, full_iter, _FullOverSubTokenIterator.
    cbn [it_next it_start it_cursor base tokens metadata formatter
         n_subtokens_per_token].
    replace (S (length ((cp ++ cv) ++ cq)) + fuel)%nat
      with (length ((cp ++ cv) ++ cq) + S fuel)%nat by lia.
    rewrite <- Hchunks.
    apply (full_over_sub_from _ _ fmt ((cp ++ cv) ++ cq) [] fuel);
      [reflexivity|].
    cbn [app]. repeat (apply Forall_app; split); assumption.
  - intros Hkey. rewrite Hchunks.
    unfold Py.len in Hkey.
    rewrite <- (Z2Nat.id key) at 1 by lia.
    rewrite slice_prefix by (rewrite spec_full_tokens_length; lia).
    replace (key + 1) with (Z.of_nat (S (Z.to_nat key))) by lia.
    rewrite slice_suffix by (rewrite spec_full_tokens_length; lia).
    reflexivity.
Qed.

(** X13: iterating a full-token view yields the formatter applied to each full
    token in turn, one value per count; with [return_token_type] set each
    value is paired with its token type, as far as the types reach. *)
Theorem full_view_iteration fv (fuel : nat) :
  Forall (fun c => 0 <= c) (n_subtokens_per_token (metadata (base fv))) ->
  let formatted :=
    map (formatter fv)
      (spec_full_tokens (tokens (base fv))
         (n_subtokens_per_token (metadata (base fv)))) in
  let enough := (S (length (n_subtokens_per_token (metadata (base fv)))) + fuel)%nat in
  match full_iter_typed fv with
  | inl it =>
      return_token_type fv = false
      /\ to_list it enough = Finished formatted
  | inr it =>
      return_token_type fv = true
      /\ to_list it enough
         = Finished (combine formatted (token_types (metadata (base fv))))
  end.
Proof.
  intros Hnn formatted enough. subst formatted enough.
  unfold full_iter_typed. cbv zeta.
  replace (S (length (n_subtokens_per_token (metadata (base fv)))) + fuel)%nat
    with (length (n_subtokens_per_token (metadata (base fv))) + S fuel)%nat by lia.
  destruct (return_token_type fv); (split; [reflexivity|]).
  - unfold to_list, zip, iter, _FullOverSubTokenIterator.
    cbn [it_next it_start it_cursor].
    exact (full_over_sub_zip_from (tokens (base fv)) (metadata (base fv))
             (formatter fv) (n_subtokens_per_token (metadata (base fv))) []
             (token_types (metadata (base fv))) fuel eq_refl Hnn).
  - unfold to_list, _FullOverSubTokenIterator.
    cbn [it_next it_start it_cursor].
    exact (full_over_sub_from (tokens (base fv)) (metadata (base fv))
             (formatter fv) (n_subtokens_per_token (metadata (base fv))) []
             fuel eq_refl Hnn).
Qed.

End FullSlices.

(** ** The terminal marker *)

Lemma append_cons (c : ascii) (a b : string) :
  String.append (String c a) b = String c (String.append a b).
Proof. reflexivity. Qed.

Lemma length_cons (c : ascii) (a : string) :
  String.length (String c a) = S (String.length a).
Proof. reflexivity. Qed.

Lemma append_nil_r (s : string) : String.append s "" = s.
Proof.
  induction s as [|c s IH]; [reflexivity|]. rewrite append_cons, IH. reflexivity.
Qed.

Lemma append_assoc (a b c : string) :
  String.append (String.append a b) c = String.append a (String.append b c).
Proof.
  induction a as [|x a IH]; [reflexivity|]. rewrite !append_cons, IH. reflexivity.
Qed.

Lemma length_append (a b : string) :
  String.length (String.append a b) = (String.length a + String.length b)%nat.
Proof.
  induction a as [|x a IH]; [reflexivity|].
  rewrite append_cons, !length_cons, IH. reflexivity.
Qed.

Lemma substring_all (s : string) : String.substring 0 (String.length s) s = s.
Proof.
  induction s as [|c s IH]; [reflexivity|].
  rewrite length_cons. cbn [String.substring]. rewrite IH. reflexivity.
Qed.

Lemma substring_append_skip (p m : string) (k : nat) :
  String.substring (String.length p) k (String.append p m) = String.substring 0 k m.
Proof.
  induction p as [|c p IH]; [reflexivity|].
  rewrite length_cons, append_cons. cbn [String.substring]. exact IH.
Qed.

Lemma substring_split (s : string) (n : nat) :
  (n <= String.length s)%nat ->
  s = String.append (String.substring 0 n s)
        (String.substring n (String.length s - n) s).
Proof.
  revert n. induction s as [|c s IH]; intros n Hn.
  - change (String.length "") with 0%nat in Hn.
    replace n with 0%nat by lia. reflexivity.
  - rewrite length_cons in Hn |- *. destruct n as [|n].
    + cbn [String.substring Nat.sub]. rewrite substring_all. reflexivity.
    + cbn [String.substring Nat.sub]. rewrite append_cons, <- IH by lia.
      reflexivity.
Qed.

(** [endswith] holds exactly of the strings that are something followed by
    the suffix. *)
Lemma endswith_iff (s suffix : string) :
  Py.endswith s suffix = true <-> exists p, s = String.append p suffix.
Proof.
  unfold Py.endswith. cbv zeta. split.
  - intros H. apply andb_true_iff in H as [Hle Heq].
    apply Nat.leb_le in Hle. apply String.eqb_eq in Heq.
    exists (String.substring 0 (String.length s - String.length suffix) s).
    rewrite <- Heq at 2.
    rewrite (substring_split s (String.length s - String.length suffix)) at 1
      by lia.
    do 2 f_equal. lia.
  - intros [p ->]. rewrite length_append. apply andb_true_iff. split.
    + apply Nat.leb_le. lia.
    + replace (String.length p + String.length suffix - String.length suffix)%nat
        with (String.length p) by lia.
      rewrite substring_append_skip, substring_all. apply String.eqb_refl.
Qed.

Lemma join_cons (a : string) (l : list string) :
  Py.join (a :: l) = String.append a (Py.join l).
Proof.
  unfold Py.join. destruct l as [|b l]; simpl.
  - symmetry. apply append_nil_r.
  - reflexivity.
Qed.

Lemma join_app (l1 l2 : list string) :
  Py.join (l1 ++ l2) = String.append (Py.join l1) (Py.join l2).
Proof.
  induction l1 as [|a l1 IH]; [reflexivity|].
  change ((a :: l1) ++ l2) with (a :: (l1 ++ l2)).
  rewrite !join_cons, IH, append_assoc. reflexivity.
Qed.

(** X14: a sub-token is terminal exactly when it is some string followed by
    the end-of-word marker; the marker alone is terminal and the empty
    string is not. *)
Theorem terminal_iff_ends_with_marker (subtoken : string) :
  (is_terminal_subtoken subtoken = true
   <-> exists p, subtoken = String.append p compound_word_end)
  /\ is_terminal_subtoken compound_word_end = true
  /\ is_terminal_subtoken "" = false.
Proof.
  split; [apply endswith_iff|]. split; reflexivity.
Qed.

Section Construction.

Context {TokenType Formatted : Type}.

Implicit Types (md : PreppedTokenMetadata TokenType).
Implicit Types (seq : PreppedTokenSequence TokenType).

(** The loop of [__post_init__] reads the counts of the metadata only. *)
Lemma check_full_tokens_counts (toks : list string) md1 md2 (c : cursor) :
  n_subtokens_per_token md1 = n_subtokens_per_token md2 ->
  check_full_tokens toks md1 c = check_full_tokens toks md2 c.
Proof.
  intros Heq.
  remember (Z.to_nat (Py.len (n_subtokens_per_token md1) - current_full_word c))
    as n eqn:Hn.
  revert c Hn. induction n as [n IH] using lt_wf_ind. intros c ->.
  rewrite (check_full_tokens_step toks md1), (check_full_tokens_step toks md2).
  assert (Hnext : full_over_sub_next toks md2 Py.join c
                  = full_over_sub_next toks md1 Py.join c)
    by (unfold full_over_sub_next; rewrite Heq; reflexivity).
  rewrite Hnext.
  destruct (full_over_sub_next toks md1 Py.join c) as [|ft c'|e] eqn:Hstep;
    try reflexivity.
  destruct (is_terminal_subtoken ft); [|reflexivity].
  eapply IH; [|reflexivity].
  unfold full_over_sub_next in Hstep.
  destruct (current_full_word c >=? Py.len (n_subtokens_per_token md1)) eqn:Hge;
    [discriminate|].
  destruct (Py.index (n_subtokens_per_token md1) (current_full_word c));
    [discriminate|].
  injection Hstep as _ <-. simpl. lia.
Qed.

(** X15: when the counts are not negative, the token count is their sum and
    the last sub-token of every full token is terminal, construction with
    the flag set succeeds. *)
Theorem terminal_last_subtokens_construct (toks : list string) md :
  Forall (fun c => 0 <= c) (n_subtokens_per_token md) ->
  Py.len toks = Py.sum (n_subtokens_per_token md) ->
  Forall (fun ft => exists init last,
                      ft = init ++ [last] /\ is_terminal_subtoken last = true)
    (spec_full_tokens toks (n_subtokens_per_token md)) ->
  __post_init__ toks md true = ok (built toks md true).
Proof.
  intros Hnn Hlen Hlast. apply post_init_intro; [exact Hlen|]. intros _.
  rewrite check_full_tokens_spec by assumption.
  rewrite (proj2 (first_unterminated_None _)); [reflexivity|].
  eapply Forall_impl; [exact Hlast|]. cbv beta.
  intros ft (init & last & -> & Hterm). unfold unterminated.
  apply endswith_iff in Hterm as [p Hp].
  assert (Ht : is_terminal_subtoken (Py.join (init ++ [last])) = true).
  { apply endswith_iff. exists (String.append (Py.join init) p).
    rewrite join_app, join_cons, append_assoc.
    change (Py.join []) with ""%string. rewrite append_nil_r, Hp. reflexivity. }
  rewrite Ht. discriminate.
Qed.

(** X16: [from_full_token] never fails: it gives a valid sequence, flag unset,
    whose only full token is the whole list of sub-tokens, the empty list
    included; its full-token view has length one and iterates to the
    formatter applied to that list. *)
Theorem from_full_token_is_one_full_token (prepped_token : list string)
    (token_type : TokenType) (fmt : list string -> Formatted) (rtt : bool)
    (fuel : nat) :
  exists seq fv,
    from_full_token prepped_token token_type = ok seq
    /\ valid seq
    /\ tokens seq = prepped_token
    /\ word_end_token_added seq = false
    /\ spec_full_tokens (tokens seq) (n_subtokens_per_token (metadata seq))
       = [prepped_token]
    /\ full_len seq = ok 1%nat
    /\ full_tokens_view seq fmt rtt = ok fv
    /\ to_list (full_iter fv) (2 + fuel) = Finished [fmt prepped_token].
Proof.
  set (md := {| n_subtokens_per_token := [Py.len prepped_token];
                token_types := [token_type] |}).
  assert (Hlen : Py.len prepped_token = Py.sum (n_subtokens_per_token md))
    by (cbn; unfold Py.sum; simpl; lia).
  assert (Hnn : Forall (fun c => 0 <= c) (n_subtokens_per_token md))
    by (repeat constructor; unfold Py.len; lia).
  assert (Hv : valid (built prepped_token md false))
    by (apply valid_built; split; [exact Hlen|discriminate]).
  assert (Hchunks : spec_full_tokens prepped_token (n_subtokens_per_token md)
                    = [prepped_token]).
  { cbn [md n_subtokens_per_token spec_full_tokens]. unfold Py.len.
    rewrite Nat2Z.id, firstn_all. reflexivity. }
  exists (built prepped_token md false),
    {| base := built prepped_token md false; formatter := fmt;
       return_token_type := rtt |}.
  split; [exact Hv|]. split; [exact Hv|]. do 2 (split; [reflexivity|]).
  split; [exact Hchunks|].
  split; [exact (full_len_built prepped_token md false Hlen)|].
  split.
  - unfold full_tokens_view, PreppedFullTokenSequence_new.
    cbn [built tokens metadata word_end_token_added].
    unfold valid in Hv. cbn [built tokens metadata word_end_token_added] in Hv.
    rewrite Hv. reflexivity.
  - change [fmt prepped_token] with (map fmt [prepped_token]).
    rewrite <- Hchunks.
    exact (full_iter_built prepped_token md false fmt rtt fuel Hnn).
Qed.

(** X17: [set_all_tokens_type] keeps a valid sequence valid, leaves tokens and
    counts alone, and leaves one type per count, each of them the given
    type, whatever the list of types was before. *)
Theorem set_all_tokens_type_keeps_valid seq (t : TokenType) :
  valid seq ->
  valid (set_all_tokens_type seq t)
  /\ tokens (set_all_tokens_type seq t) = tokens seq
  /\ n_subtokens_per_token (metadata (set_all_tokens_type seq t))
     = n_subtokens_per_token (metadata seq)
  /\ length (token_types (metadata (set_all_tokens_type seq t)))
     = length (n_subtokens_per_token (metadata seq))
  /\ Forall (fun ty => ty = t) (token_types (metadata (set_all_tokens_type seq t))).
Proof.
  intros Hv. split; [|split; [reflexivity|split; [reflexivity|split]]].
  - pose proof (valid_is_built seq Hv) as Hb.
    rewrite Hb in Hv. apply valid_built in Hv as [Hlen Hchk].
    assert (Hset : set_all_tokens_type seq t
                   = built (tokens seq)
                       {| n_subtokens_per_token :=
                            n_subtokens_per_token (metadata seq);
                          token_types :=
                            repeat t (length (n_subtokens_per_token (metadata seq))) |}
                       (word_end_token_added seq)).
    { clear Hlen Hchk. destruct seq as [toks md weta f2s s2f].
      cbn [tokens metadata word_end_token_added] in Hb.
      unfold built in Hb. injection Hb as -> ->. reflexivity. }
    rewrite Hset. apply valid_built. split; [exact Hlen|].
    intros Hw. rewrite <- (Hchk Hw).
    apply check_full_tokens_counts. reflexivity.
  - cbn [set_all_tokens_type metadata token_types]. apply repeat_length.
  - cbn [set_all_tokens_type metadata token_types].
    apply Forall_forall. intros ty Hin. apply list_elem_of_In in Hin.
    eapply repeat_spec, Hin.
Qed.

End Construction.

(** ** Cutting a sub-token view and putting it back together *)

Section SubConcatenation.

Context {TokenType Formatted : Type}.

Implicit Types (md : PreppedTokenMetadata TokenType).
Implicit Types (seq : PreppedTokenSequence TokenType).

(** What a slice with aligned bounds of a valid sub-token view is. *)
Lemma sub_getitem_aligned (toks : list string) md (weta : bool)
    (start stop : option Z) :
  Forall (fun c => 0 <= c) (n_subtokens_per_token md) ->
  valid (built toks md weta) ->
  ~ misaligned (built toks md weta) start ->
  ~ misaligned (built toks md weta) stop ->
  exists fs fe,
    _sub_to_full_index (built toks md weta) (sub_len (built toks md weta)) start
    = ok fs
    /\ _sub_to_full_index (built toks md weta) (sub_len (built toks md weta)) stop
       = ok fe
    /\ sub_getitem (Formatted:=Formatted) (built toks md weta)
         (Slice start stop None)
       = ok (VSub (built (Py.slice toks start stop) (slice_metadata md fs fe) weta)).
Proof.
  intros Hnn Hv Hs He.
  pose proof (proj1 (proj1 (valid_built _ _ _) Hv)) as Hlen.
  destruct (sub_to_full_aligned toks md weta start Hlen Hs) as (fs & Es & Hlo & _).
  destruct (sub_to_full_aligned toks md weta stop Hlen He) as (fe & Ee & _ & Hhi).
  set (F := length (n_subtokens_per_token md)) in *.
  assert (Htoks : Py.slice toks start stop
                  = tokens_between toks md (slice_lo F fs) (slice_hi F fe)).
  { unfold Py.slice. cbv zeta. rewrite Hlo, Hhi. reflexivity. }
  pose proof (tokens_between_consistent toks md weta fs fe Hnn Hv) as Hv'.
  cbv zeta in Hv'. fold F in Hv'.
  exists fs, fe. split; [exact Es|]. split; [exact Ee|].
  unfold sub_getitem. cbn [as_slice bind ok fst snd].
  rewrite Es, Ee. cbn [bind ok built tokens metadata word_end_token_added].
  unfold PreppedSubTokenSequence_new.
  rewrite Htoks. unfold valid in Hv'.
  cbn [built tokens metadata word_end_token_added] in Hv'.
  rewrite Hv'. reflexivity.
Qed.

(** X18: cutting a valid sub-token view at [k] and concatenating [[:k]] and
    [[k:]] gives back all its sub-tokens. When [k] is aligned the two parts
    are sub-token views, the sum has the tokens and the metadata of the
    view, and the sub-token view derived from it is the view itself; when
    [k] cuts through a full token both parts and the sum are surrogates. *)
Theorem sub_split_and_concatenate seq (k : Z) :
  valid seq ->
  Forall (fun c => 0 <= c) (n_subtokens_per_token (metadata seq)) ->
  (~ misaligned seq (Some k) ->
   exists p q r,
     sub_getitem (Formatted:=Formatted) seq (Slice None (Some k) None)
     = ok (VSub p)
     /\ sub_getitem (Formatted:=Formatted) seq (Slice (Some k) None None)
        = ok (VSub q)
     /\ sub_add p (VSub (Formatted:=Formatted) q) = ok (VSub r)
     /\ tokens r = tokens seq
     /\ metadata r = metadata seq
     /\ sub_token_view r = ok seq)
  /\ (misaligned seq (Some k) ->
      exists p q r,
        sub_getitem (Formatted:=Formatted) seq (Slice None (Some k) None)
        = ok (VSurrogate p)
        /\ sub_getitem (Formatted:=Formatted) seq (Slice (Some k) None None)
           = ok (VSurrogate q)
        /\ surrogate_add p (VSurrogate (TokenType:=TokenType) (Formatted:=Formatted) q)
           = ok r
        /\ surrogate_tokens r = tokens seq).
Proof.
  intros Hv Hnn. split.
  - intros Hk.
    pose proof (valid_is_built seq Hv) as Hb.
    rewrite Hb in Hk, Hv. rewrite Hb.
    set (toks := tokens seq) in *. set (md := metadata seq) in *.
    set (weta := word_end_token_added seq) in *.
    cbn [built tokens metadata].
    assert (Hnone : ~ misaligned (built toks md weta) None) by exact id.
    destruct (sub_getitem_aligned toks md weta None (Some k) Hnn Hv Hnone Hk)
      as (fs1 & fk1 & Es1 & Ek1 & Hp).
    destruct (sub_getitem_aligned toks md weta (Some k) None Hnn Hv Hk Hnone)
      as (fk2 & fe2 & Ek2 & Ee2 & Hq).
    rewrite Ek1 in Ek2. injection Ek2 as <-.
    rewrite sub_to_full_index_result in Es1, Ee2, Ek1.
    injection Es1 as <-. injection Ee2 as <-.
    cbv zeta in Ek1.
    destruct (_sub_to_full_token_indices (built toks md weta)
              !! normalized (length (tokens (built toks md weta))) k) as [j|];
      [|discriminate].
    injection Ek1 as <-.
    match type of Hp with
    | context [slice_metadata md None (Some ?x)] => set (fk := x) in *
    end.
    assert (Htoks : Py.slice toks None (Some k) ++ Py.slice toks (Some k) None
                    = toks) by apply slice_split.
    assert (Hmd : metadata_update_ (slice_metadata md None (Some fk))
                    (slice_metadata md (Some fk) None) = md).
    { unfold metadata_update_, slice_metadata.
      cbn [n_subtokens_per_token token_types].
      rewrite !slice_split. destruct md; reflexivity. }
    do 3 eexists.
    split; [exact Hp|]. split; [exact Hq|].
    split; [reflexivity|].
    cbn [add_sequence update_ tokens metadata built word_end_token_added].
    rewrite Htoks, Hmd. split; [reflexivity|]. split; [reflexivity|].
    unfold sub_token_view, PreppedSubTokenSequence_new.
    cbn [add_sequence update_ tokens metadata built word_end_token_added].
    rewrite Htoks, Hmd.
    unfold valid in Hv. cbn [built tokens metadata word_end_token_added] in Hv.
    exact Hv.
  - intros Hk.
    exists {| surrogate_tokens := Py.slice (tokens seq) None (Some k) |},
      {| surrogate_tokens := Py.slice (tokens seq) (Some k) None |},
      {| surrogate_tokens := Py.slice (tokens seq) None (Some k)
                             ++ Py.slice (tokens seq) (Some k) None |}.
    apply sub_to_full_index_misaligned in Hk as [e Hk].
    split; [|split; [|split; [reflexivity|apply slice_split]]].
    + unfold sub_getitem. cbn [as_slice bind ok fst snd].
      rewrite Hk. reflexivity.
    + unfold sub_getitem. cbn [as_slice bind ok fst snd].
      rewrite Hk. reflexivity.
Qed.

End SubConcatenation.

(** ** The two views of one sequence *)

(** X19: the two views of a valid sequence iterate over the same sub-tokens:
    the sub-token view yields the tokens one by one, the full-token view
    (formatter left as the identity) yields them in groups, one group per
    count, and the groups concatenated are the tokens. *)
Theorem views_iterate_same_subtokens {TokenType : Type}
    (seq : PreppedTokenSequence TokenType) (fuel : nat) :
  valid seq ->
  Forall (fun c => 0 <= c) (n_subtokens_per_token (metadata seq)) ->
  exists groups,
    to_list (full_iter {| base := seq; formatter := fun x => x;
                          return_token_type := false |})
      (S (length (n_subtokens_per_token (metadata seq))) + fuel)
    = Finished groups
    /\ length groups = length (n_subtokens_per_token (metadata seq))
    /\ to_list (sub_iter seq) (S (length (tokens seq)) + fuel)
       = Finished (concat groups).
Proof.
  intros Hv Hnn.
  exists (spec_full_tokens (tokens seq) (n_subtokens_per_token (metadata seq))).
  split; [|split].
  - rewrite (valid_is_built seq Hv) at 1.
    rewrite (full_iter_built (tokens seq) (metadata seq) (word_end_token_added seq)
               (fun x => x) false fuel Hnn).
    rewrite map_id. reflexivity.
  - apply spec_full_tokens_length.
  - rewrite concat_spec_full_tokens by exact Hnn.
    rewrite (valid_is_built seq Hv) in Hv. apply valid_built in Hv as [Hlen _].
    rewrite <- Hlen. unfold Py.len. rewrite Nat2Z.id, firstn_all.
    apply drain_list.
Qed.

(** * The further properties at the inputs of the module's doctest *)

Lemma doctest_counts_nonneg :
  Forall (fun c => 0 <= c) (n_subtokens_per_token Doctest.metadata12).
Proof. repeat constructor; lia. Qed.

Lemma doctest_counts_positive :
  Forall (fun c => 0 < c) (n_subtokens_per_token Doctest.metadata12).
Proof. repeat constructor; lia. Qed.

Lemma grouping_iterator_witness :
  to_list (_FullOverSubTokenIterator [1; 2; 3] Doctest.metadata12 (fun x => x)) 3
  = Finished [[1]; [2; 3]]
  /\ length (spec_full_tokens [1; 2; 3] [1; 2]) = 2%nat
  /\ concat (spec_full_tokens [1; 2; 3] [1; 2]) = [1; 2; 3].
Proof.
  exact (grouping_iterator_groups_by_counts [1; 2; 3] Doctest.metadata12
           (fun x => x) 0 doctest_counts_nonneg).
Defined.

Lemma broadcast_iterator_witness :
  to_list (_SubOverFullTokenIterator [10; 20] Doctest.metadata12) 4
  = Finished [10; 20; 20].
Proof.
  apply (broadcast_iterator_replicates [10; 20] Doctest.metadata12 0).
  simpl. lia.
Defined.

Lemma broadcast_overrun_witness :
  to_list (_SubOverFullTokenIterator [10; 20; 30] Doctest.metadata12) 4
  = Raised [10; 20; 20] IndexError.
Proof.
  apply (broadcast_iterator_overrun [10; 20; 30] Doctest.metadata12 0).
  simpl. lia.
Defined.

Lemma broadcast_matches_witness :
  to_list (sub_get_iterator Doctest.prepped_tokens [10; 20] true) 4
  = Finished [10; 20; 20]
  /\ length (broadcast [10; 20] [1; 2]) = 3%nat
  /\ to_list (sub_get_iterator Doctest.prepped_tokens [10; 20] false) 3
     = Finished [10; 20].
Proof.
  apply (broadcast_matches_sub_tokens Doctest.prepped_tokens [10; 20] 0).
  - reflexivity.
  - repeat constructor; lia.
  - reflexivity.
Defined.

Lemma grouping_inverts_broadcast_witness :
  to_list (_FullOverSubTokenIterator (broadcast [10; 20] [1; 2])
             Doctest.metadata12 (fun x => x)) 3
  = Finished [[10]; [20; 20]].
Proof.
  apply (grouping_inverts_broadcast [10; 20] Doctest.metadata12 (fun x => x) 0).
  - repeat constructor; lia.
  - reflexivity.
Defined.

Lemma tables_witness :
  (forall (k : Z) (i : nat),
      _sub_to_full_token_indices Doctest.prepped_tokens !! k = Some i ->
      (i <= 2)%nat
      /\ Py.index (_full_to_sub_token_indices Doctest.prepped_tokens) (Z.of_nat i)
         = ok k)
  /\ (forall k : Z,
        _sub_to_full_token_indices Doctest.prepped_tokens !! k = None
        <-> ~ In k (_full_to_sub_token_indices Doctest.prepped_tokens))
  /\ (Forall (fun c => 0 < c) [1; 2] ->
      forall i : nat,
        (i <= 2)%nat ->
        exists k,
          Py.index (_full_to_sub_token_indices Doctest.prepped_tokens) (Z.of_nat i)
          = ok k
          /\ _sub_to_full_token_indices Doctest.prepped_tokens !! k = Some i).
Proof.
  apply (tables_are_inverse ["hi</t>"; "the"; "re</t>"]%string Doctest.metadata12
           true Doctest.prepped_tokens).
  reflexivity.
Defined.

Lemma aligned_sub_slice_witness :
  exists s' lo hi,
    sub_getitem (Formatted:=string) Doctest.prepped_tokens
      (Slice (Some 1) None None) = ok (VSub s')
    /\ valid s'
    /\ tokens s' = ["the"; "re</t>"]%string
    /\ word_end_token_added s' = true
    /\ spec_full_tokens (tokens s') (n_subtokens_per_token (metadata s'))
       = firstn (hi - lo)
           (skipn lo (spec_full_tokens (tokens Doctest.prepped_tokens) [1; 2])).
Proof.
  apply (aligned_sub_slice (Formatted:=string) Doctest.prepped_tokens (Some 1) None).
  - reflexivity.
  - exact doctest_counts_nonneg.
  - intros H. vm_compute in H. discriminate.
  - intros [].
Defined.

Lemma sub_slice_witness :
  (exists v,
      sub_getitem (Formatted:=string) Doctest.prepped_tokens
        (Slice (Some 1) (Some 2) None) = ok v
      /\ raw_tokens v = ["the"%string]
      /\ match v with
         | VSub s' =>
             valid s'
             /\ ~ misaligned Doctest.prepped_tokens (Some 1)
             /\ ~ misaligned Doctest.prepped_tokens (Some 2)
         | VSurrogate _ =>
             misaligned Doctest.prepped_tokens (Some 1)
             \/ misaligned Doctest.prepped_tokens (Some 2)
         | _ => False
         end)
  /\ forall i : Z,
       exists v,
         sub_getitem (Formatted:=string) Doctest.prepped_tokens (Int i) = ok v
         /\ raw_tokens v
            = Py.slice (tokens Doctest.prepped_tokens) (Some i) (Some (i + 1)).
Proof.
  apply (sub_slice_never_raises (Formatted:=string) Doctest.prepped_tokens
           (Some 1) (Some 2)).
  - reflexivity.
  - exact doctest_counts_nonneg.
Defined.

Lemma full_slice_witness :
  exists fv',
    full_getitem Doctest.full_prepped_tokens (Slice (Some 1) None None) = ok fv'
    /\ valid (base fv')
    /\ formatter fv' = Py.join
    /\ return_token_type fv' = false
    /\ metadata (base fv') = slice_metadata Doctest.metadata12 (Some 1) None
    /\ tokens (base fv') = ["the"; "re</t>"]%string
    /\ full_len (base fv') = ok 1%nat
    /\ to_list (full_iter fv') 2 = Finished ["there</t>"%string].
Proof.
  apply (full_slice_iterates_to_slice Doctest.full_prepped_tokens (Some 1) None 0).
  - reflexivity.
  - exact doctest_counts_nonneg.
Defined.

Lemma full_integer_index_witness :
  exists fv',
    full_getitem Doctest.full_prepped_tokens (Int 0) = ok fv'
    /\ valid (base fv')
    /\ spec_full_tokens (tokens (base fv'))
         (n_subtokens_per_token (metadata (base fv')))
       = [["hi</t>"%string]]
    /\ tokens (base fv') = ["hi</t>"%string].
Proof.
  apply (full_integer_index Doctest.full_prepped_tokens 0).
  - reflexivity.
  - exact doctest_counts_nonneg.
Defined.

Lemma full_split_witness :
  exists p q r,
    full_getitem Doctest.full_prepped_tokens (Slice None (Some 1) None) = ok p
    /\ full_getitem Doctest.full_prepped_tokens (Slice (Some 1) None None) = ok q
    /\ full_add p (VFull q) = ok (VFull r)
    /\ tokens (base r) = ["hi</t>"; "the"; "re</t>"]%string
    /\ metadata (base r) = Doctest.metadata12
    /\ full_tokens_view (base r) (formatter r) (return_token_type r)
       = ok Doctest.full_prepped_tokens.
Proof.
  apply (full_split_and_concatenate Doctest.full_prepped_tokens 1).
  - reflexivity.
  - exact doctest_counts_nonneg.
Defined.

Lemma setitem_witness :
  exists fv',
    full_setitem Doctest.full_prepped_tokens 1 (VFull Doctest.hi) = (ok tt, fv')
    /\ formatter fv' = Py.join
    /\ return_token_type fv' = false
    /\ word_end_token_added (base fv') = true
    /\ n_subtokens_per_token (metadata (base fv')) = [1; 1]
    /\ token_types (metadata (base fv')) = [Doctest.TypeA; Doctest.TypeA]
    /\ spec_full_tokens (tokens (base fv'))
         (n_subtokens_per_token (metadata (base fv')))
       = [["hi</t>"]; ["hi</t>"]]%string
    /\ to_list (full_iter fv')
         (S (length (n_subtokens_per_token (metadata (base fv')))) + 0)
       = Finished ["hi</t>"; "hi</t>"]%string
    /\ (0 <= 1 < 2 ->
        spec_full_tokens (tokens (base fv'))
          (n_subtokens_per_token (metadata (base fv')))
        = [["hi</t>"]; ["hi</t>"]]%string).
Proof.
  apply (setitem_splices_full_tokens Doctest.full_prepped_tokens Doctest.hi 1 0).
  - reflexivity.
  - exact doctest_counts_nonneg.
  - reflexivity.
  - repeat constructor; lia.
Defined.

Lemma full_view_iteration_witness :
  false = false
  /\ to_list (full_iter Doctest.full_prepped_tokens) 3
     = Finished ["hi</t>"; "there</t>"]%string.
Proof.
  exact (full_view_iteration Doctest.full_prepped_tokens 0 doctest_counts_nonneg).
Defined.

Lemma terminal_construct_witness :
  __post_init__ ["hi</t>"; "the"; "re</t>"]%string Doctest.metadata12 true
  = ok Doctest.prepped_tokens.
Proof.
  apply (terminal_last_subtokens_construct ["hi</t>"; "the"; "re</t>"]%string
           Doctest.metadata12).
  - exact doctest_counts_nonneg.
  - reflexivity.
  - constructor; [exists [], "hi</t>"%string; split; reflexivity|].
    constructor; [exists ["the"%string], "re</t>"%string; split; reflexivity|].
    constructor.
Defined.

Lemma set_all_tokens_type_witness :
  valid (set_all_tokens_type Doctest.prepped_tokens "TypeB"%string)
  /\ tokens (set_all_tokens_type Doctest.prepped_tokens "TypeB"%string)
     = ["hi</t>"; "the"; "re</t>"]%string
  /\ n_subtokens_per_token
       (metadata (set_all_tokens_type Doctest.prepped_tokens "TypeB"%string))
     = [1; 2]
  /\ length (token_types
               (metadata (set_all_tokens_type Doctest.prepped_tokens "TypeB"%string)))
     = 2%nat
  /\ Forall (fun ty => ty = "TypeB"%string)
       (token_types
          (metadata (set_all_tokens_type Doctest.prepped_tokens "TypeB"%string))).
Proof.
  apply (set_all_tokens_type_keeps_valid Doctest.prepped_tokens "TypeB"%string).
  reflexivity.
Defined.

Lemma sub_split_witness :
  (~ misaligned Doctest.prepped_tokens (Some 1) ->
   exists p q r,
     sub_getitem (Formatted:=string) Doctest.prepped_tokens
       (Slice None (Some 1) None) = ok (VSub p)
     /\ sub_getitem (Formatted:=string) Doctest.prepped_tokens
          (Slice (Some 1) None None) = ok (VSub q)
     /\ sub_add p (VSub (Formatted:=string) q) = ok (VSub r)
     /\ tokens r = ["hi</t>"; "the"; "re</t>"]%string
     /\ metadata r = Doctest.metadata12
     /\ sub_token_view r = ok Doctest.prepped_tokens)
  /\ (misaligned Doctest.prepped_tokens (Some 1) ->
      exists p q r,
        sub_getitem (Formatted:=string) Doctest.prepped_tokens
          (Slice None (Some 1) None) = ok (VSurrogate p)
        /\ sub_getitem (Formatted:=string) Doctest.prepped_tokens
             (Slice (Some 1) None None) = ok (VSurrogate q)
        /\ surrogate_add p (VSurrogate (TokenType:=string) (Formatted:=string) q)
           = ok r
        /\ surrogate_tokens r = ["hi</t>"; "the"; "re</t>"]%string).
Proof.
  apply (sub_split_and_concatenate (Formatted:=string) Doctest.prepped_tokens 1).
  - reflexivity.
  - exact doctest_counts_nonneg.
Defined.

Lemma views_iterate_witness :
  exists groups,
    to_list (full_iter {| base := Doctest.prepped_tokens; formatter := fun x => x;
                          return_token_type := false |}) 3
    = Finished groups
    /\ length groups = 2%nat
    /\ to_list (sub_iter Doctest.prepped_tokens) 4 = Finished (concat groups).
Proof.
  apply (views_iterate_same_subtokens Doctest.prepped_tokens 0).
  - reflexivity.
  - exact doctest_counts_nonneg.
Defined.
